(** * The extra-compiler engine of the project explorer

    A shallow embedding of [ExtraCompiler] and [ProcessExtraCompiler]
    (projectexplorer/extracompiler.cpp): the per-target content cache,
    the staleness scan of the constructor, reconciliation after a build,
    the editor bridge with its debounce timer, and the process-backed
    runner with its single tracked future watcher.

    Everything the control thread owns is one record that the handlers
    pass along; what a handler emits or asks of the outside (signals,
    deferred calls, jobs handed to the thread pool) is collected in a log
    of effects.  What a handler consults outside the object (the disk, the
    open documents, the clock, the build manager) is an explicit
    argument. *)

From Stdlib Require Import ZArith String List Bool Lia.
From stdpp Require Import base option list strings gmap.

Import ListNotations.
Local Open Scope Z_scope.

(** ** Qt value types *)

Definition FilePath := string.

(** [QByteArray]: a null array is distinct from an empty one for [isNull],
    but [operator==] compares sizes and bytes only, so the two are equal.
    The payload is a string of 8-bit characters. *)
Inductive QByteArray : Type :=
| QNull
| QBytes (payload : string).

Definition constData (a : QByteArray) : string :=
  match a with QNull => EmptyString | QBytes s => s end.

Definition isNull (a : QByteArray) : bool :=
  match a with QNull => true | QBytes _ => false end.

Definition qba_eqb (a b : QByteArray) : bool :=
  bool_decide (constData a = constData b).

(** [QDateTime] in milliseconds; [None] is the invalid date-time a
    default-constructed [QDateTime] holds.  Qt orders every invalid
    date-time before every valid one (older versions compare it as the
    start of the epoch, which is the same for the times files carry),
    and [operator>=] is the negation of [operator<]. *)
Definition QDateTime := option Z.

Definition isValid (t : QDateTime) : bool :=
  match t with Some _ => true | None => false end.

Definition dt_ltb (a b : QDateTime) : bool :=
  match a, b with
  | None, None => false
  | None, Some _ => true
  | Some _, None => false
  | Some x, Some y => Z.ltb x y
  end.

Definition dt_gtb (a b : QDateTime) : bool := dt_ltb b a.
Definition dt_geb (a b : QDateTime) : bool := negb (dt_ltb a b).

(** ** The outside world *)

(** A file on disk as the engine sees it: [QFileInfo::lastModified],
    whether [QFile::open(ReadOnly | Text)] succeeds, whether the file is
    executable, and what [readAll] returns once it is open. *)
Record DiskFile : Type := mkFile {
  lastModified : Z;
  openable : bool;
  executable : bool;
  readAll : QByteArray
}.

Abbreviation FileSystem := (gmap string DiskFile).

Definition exists_ (fs : FileSystem) (f : FilePath) : bool :=
  match fs !! f with Some _ => true | None => false end.

(** [FilePath::lastModified] / [QFileInfo::lastModified]: invalid when
    the file does not exist. *)
Definition fileTime (fs : FileSystem) (f : FilePath) : QDateTime :=
  lastModified <$> (fs !! f).

(** [QFile file(path); if (file.open(...)) ... file.readAll()] *)
Definition openRead (fs : FileSystem) (f : FilePath) : option QByteArray :=
  match fs !! f with
  | Some df => if openable df then Some (readAll df) else None
  | None => None
  end.

Definition isExecutable (fs : FileSystem) (f : FilePath) : bool :=
  match fs !! f with Some df => executable df | None => false end.

(** Documents and editors of the editor manager.  An editor is known by
    its address; [document] is the address of the [IDocument] it shows. *)
Record IDocument : Type := mkDoc {
  filePath : FilePath;
  docContents : QByteArray
}.

Record IEditor : Type := mkEditor {
  editorId : nat;
  document : nat
}.

Global Instance IEditor_eq_dec : EqDecision IEditor.
Proof. solve_decision. Defined.

Definition Documents := nat -> IDocument.
Definition Project := nat.

(** ** The content hash

    [FileNameToContentsHash] is a [QHash<FilePath, QByteArray>].  Its
    iteration order is not specified; the list order below stands for
    whichever order the hash has, and keys occur once. *)
Definition FileNameToContentsHash := list (FilePath * QByteArray).

Definition keys (h : FileNameToContentsHash) : list FilePath := map fst h.

Fixpoint find (f : FilePath) (h : FileNameToContentsHash) : option QByteArray :=
  match h with
  | [] => None
  | (k, v) :: h' => if bool_decide (k = f) then Some v else find f h'
  end.

(** [QHash::value(key)]: a default-constructed value for a missing key. *)
Definition value (f : FilePath) (h : FileNameToContentsHash) : QByteArray :=
  default QNull (find f h).

(** Assignment through the iterator [find] returned. *)
Fixpoint assign (f : FilePath) (c : QByteArray) (h : FileNameToContentsHash)
  : FileNameToContentsHash :=
  match h with
  | [] => []
  | (k, v) :: h' =>
      if bool_decide (k = f) then (k, c) :: h' else (k, v) :: assign f c h'
  end.

(** [QHash::insert]: replaces the value of a key already there. *)
Definition insert_ (f : FilePath) (c : QByteArray) (h : FileNameToContentsHash)
  : FileNameToContentsHash :=
  match find f h with
  | Some _ => assign f c h
  | None => h ++ [(f, c)]
  end.

(** The hash the constructor starts from: one null entry per target. *)
Definition nullEntries (tgts : list FilePath) (h0 : FileNameToContentsHash)
  : FileNameToContentsHash :=
  fold_left (fun h t => insert_ t QNull h) tgts h0.

Definition isEmpty (h : FileNameToContentsHash) : bool :=
  match h with [] => true | _ => false end.

(** ** Effects a handler leaves behind *)

Inductive ContentProvider : Type :=
| ProvideBytes (sourceContents : QByteArray)   (* [sourceContents]() { return sourceContents; } *)
| ProvideFile (fileName : FilePath).           (* [fileName]() { open, readAll } *)

Definition Environment := list (string * string).

Record Job : Type := mkJob {
  job_cmd : FilePath;
  job_workDir : FilePath;
  job_args : list string;
  job_provider : ContentProvider;
  job_env : Environment
}.

Inductive Effect : Type :=
| contentsChanged (file : FilePath)           (* emit contentsChanged(file) *)
| singleShotRun (msec : Z) (file : FilePath)  (* QTimer::singleShot(msec, this, run(file)) *)
| updateIssues (editor : IEditor)             (* d->updateIssues() with an editor bound *)
| newWatcher (w : nat)                        (* new QFutureWatcher, finished -> cleanUp *)
| deleteWatcher (w : nat)                     (* delete m_watcher *)
| runAsync (w : nat) (job : Job)              (* setFuture(Utils::runAsync(pool, runInThread, ...)) *)
| cancel (w : nat)                            (* m_watcher->cancel() *)
| waitForFinished (w : nat).                  (* m_watcher->waitForFinished() *)

(** ** A state monad that logs effects *)

Definition M (S A : Type) : Type := S -> A * S * list Effect.

Definition ret {S A} (a : A) : M S A := fun s => (a, s, []).

Definition bind {S A B} (m : M S A) (k : A -> M S B) : M S B :=
  fun s =>
    let '(a, s1, e1) := m s in
    let '(b, s2, e2) := k a s1 in
    (b, s2, e1 ++ e2).

Definition get {S} : M S S := fun s => (s, s, []).
Definition modify {S} (f : S -> S) : M S unit := fun s => (tt, f s, []).
Definition emit {S} (e : Effect) : M S unit := fun s => (tt, s, [e]).
Definition when {S} (b : bool) (m : M S unit) : M S unit :=
  if b then m else ret tt.

Fixpoint forEach {S A} (l : list A) (body : A -> M S unit) : M S unit :=
  match l with
  | [] => ret tt
  | x :: l' => bind (body x) (fun _ => forEach l' body)
  end.

Definition exec {S A} (m : M S A) (s : S) : S := snd (fst (m s)).
Definition log {S A} (m : M S A) (s : S) : list Effect := snd (m s).

Declare Scope cmd_scope.
Delimit Scope cmd_scope with cmd.
Notation "x <- m ;; k" := (bind m (fun x => k))
  (at level 100, m at next level, right associativity) : cmd_scope.
Notation "m ;; k" := (bind m (fun _ => k))
  (at level 100, right associativity) : cmd_scope.
Local Open Scope cmd_scope.

(** ** ExtraCompilerPrivate *)

(** The single-shot [QTimer]: inactive, or active with the time at which
    it is due. *)
Definition QTimer := option Z.

Record ExtraCompilerPrivate : Type := mkPrivate {
  project : Project;
  source : FilePath;
  contents : FileNameToContentsHash;
  compileTime : QDateTime;
  lastEditor : option IEditor;
  dirty : bool;
  timer : QTimer;
  (* documents whose contentsChanged signal is connected to setDirty *)
  connections : list nat
}.

Definition set_contents (h : FileNameToContentsHash) (p : ExtraCompilerPrivate) :=
  mkPrivate (project p) (source p) h (compileTime p) (lastEditor p)
            (dirty p) (timer p) (connections p).
Definition set_compileTime (t : QDateTime) (p : ExtraCompilerPrivate) :=
  mkPrivate (project p) (source p) (contents p) t (lastEditor p)
            (dirty p) (timer p) (connections p).
Definition set_lastEditor (e : option IEditor) (p : ExtraCompilerPrivate) :=
  mkPrivate (project p) (source p) (contents p) (compileTime p) e
            (dirty p) (timer p) (connections p).
Definition set_dirty (b : bool) (p : ExtraCompilerPrivate) :=
  mkPrivate (project p) (source p) (contents p) (compileTime p) (lastEditor p)
            b (timer p) (connections p).
Definition set_timer (t : QTimer) (p : ExtraCompilerPrivate) :=
  mkPrivate (project p) (source p) (contents p) (compileTime p) (lastEditor p)
            (dirty p) t (connections p).
Definition set_connections (c : list nat) (p : ExtraCompilerPrivate) :=
  mkPrivate (project p) (source p) (contents p) (compileTime p) (lastEditor p)
            (dirty p) (timer p) c.

(** ** ExtraCompiler

    The base class.  [run] is pure virtual in both overloads, so the
    handlers are written over whatever the subclass supplies; [Sub] holds
    the members a subclass adds to the object. *)

Section ExtraCompiler.
Context {Sub : Type}.

Record ExtraCompiler : Type := mkCompiler {
  d : ExtraCompilerPrivate;
  sub : Sub
}.

Definition Cmd := M ExtraCompiler unit.

Definition on_d (f : ExtraCompilerPrivate -> ExtraCompilerPrivate) : Cmd :=
  modify (fun self => mkCompiler (f (d self)) (sub self)).

(** virtual void run(const QByteArray &sourceContents) = 0;
    virtual void run(const Utils::FilePath &file) = 0; *)
Variable run_contents : QByteArray -> Cmd.
Variable run_file : FilePath -> Cmd.

Definition content (file : FilePath) (self : ExtraCompiler) : QByteArray :=
  value file (contents (d self)).

Definition targets (self : ExtraCompiler) : list FilePath :=
  keys (contents (d self)).

Definition setCompileTime (time : QDateTime) : Cmd :=
  on_d (set_compileTime time).

Definition setContent (file : FilePath) (bytes : QByteArray) : Cmd :=
  self <- get ;;
  match find file (contents (d self)) with
  | Some cached =>
      when (negb (qba_eqb cached bytes))
        (on_d (set_contents (assign file bytes (contents (d self)))) ;;
         emit (contentsChanged file))
  | None => ret tt
  end.

(** The members as the constructor's first lines leave them: one entry
    with a default-constructed array per target, nothing else set. *)
Definition initial (proj : Project) (src : FilePath) (tgts : list FilePath)
           (sub0 : Sub) : ExtraCompiler :=
  mkCompiler
    (mkPrivate proj src (nullEntries tgts [])
               None None false None [])
    sub0.

(** One round of the constructor's loop over [targets]. *)
Definition scanTarget (fs : FileSystem) (sourceTime : QDateTime)
           (target : FilePath) : Cmd :=
  match fs !! target with
  | None => on_d (set_dirty true)
  | Some info =>
      let modified : QDateTime := Some (lastModified info) in
      when (dt_ltb modified sourceTime) (on_d (set_dirty true)) ;;
      self <- get ;;
      when (negb (isValid (compileTime (d self)))
            || dt_gtb (compileTime (d self)) modified)
        (on_d (set_compileTime modified)) ;;
      match openRead fs target with
      | Some bytes => setContent target bytes
      | None => ret tt
      end
  end.

Definition scan (fs : FileSystem) (src : FilePath) (tgts : list FilePath) : Cmd :=
  forEach tgts (scanTarget fs (fileTime fs src)).

(** The tail of the constructor: hand the run to the event loop. *)
Definition scheduleInitialRun : Cmd :=
  self <- get ;;
  when (dirty (d self))
    (on_d (set_dirty false) ;;
     emit (singleShotRun 0 (source (d self)))).

Definition constructor (fs : FileSystem) (proj : Project) (src : FilePath)
           (tgts : list FilePath) (sub0 : Sub) : ExtraCompiler * list Effect :=
  let m := scan fs src tgts ;; scheduleInitialRun in
  (exec m (initial proj src tgts sub0), log m (initial proj src tgts sub0)).

(** One round of the loop [forEachTarget] drives in [onTargetsBuilt]. *)
Definition adoptBuilt (fs : FileSystem) (sourceTime : QDateTime)
           (target : FilePath) : Cmd :=
  let generateTime := fileTime fs target in
  if isValid generateTime && dt_gtb generateTime sourceTime then
    self <- get ;;
    if dt_geb (compileTime (d self)) generateTime then ret tt
    else match openRead fs target with
         | Some bytes =>
             on_d (set_compileTime generateTime) ;;
             setContent target bytes
         | None => ret tt
         end
  else ret tt.

Definition onTargetsBuilt (fs : FileSystem) (isBuilding : Project -> bool)
           (proj : Project) : Cmd :=
  self <- get ;;
  if bool_decide (proj <> project (d self)) || isBuilding proj then ret tt
  else
    let sourceTime := fileTime fs (source (d self)) in
    if isValid (compileTime (d self))
       && dt_geb (compileTime (d self)) sourceTime then ret tt
    else forEach (keys (contents (d self))) (adoptBuilt fs sourceTime).

(** [disconnect(doc, contentsChanged, this, setDirty)] drops every such
    connection; [connect] adds one. *)
Definition unplug (doc : nat) (p : ExtraCompilerPrivate) : ExtraCompilerPrivate :=
  set_connections (List.filter (fun c => negb (Nat.eqb c doc)) (connections p)) p.

Definition plug (doc : nat) (p : ExtraCompilerPrivate) : ExtraCompilerPrivate :=
  set_connections (connections p ++ [doc]) p.

Definition disconnect (doc : nat) : Cmd := on_d (unplug doc).

Definition connect (doc : nat) : Cmd := on_d (plug doc).

(** [editor && editor->document()->filePath() == d->source] *)
Definition shows (docs : Documents) (editor : option IEditor) (src : FilePath)
  : bool :=
  match editor with
  | Some e => bool_decide (filePath (docs (document e)) = src)
  | None => false
  end.

Definition onEditorChanged (docs : Documents) (editor : option IEditor) : Cmd :=
  self <- get ;;
  match lastEditor (d self) with
  | Some old =>
      let doc := document old in
      disconnect doc ;;
      self <- get ;;
      when (dirty (d self))
        (on_d (set_dirty false) ;;
         run_contents (docContents (docs doc)))
  | None => ret tt
  end ;;
  self <- get ;;
  match editor with
  | Some e =>
      if shows docs editor (source (d self)) then
        on_d (set_lastEditor (Some e)) ;;
        emit (updateIssues e) ;;
        connect (document e)
      else on_d (set_lastEditor None)
  | None => on_d (set_lastEditor None)
  end.

Definition setDirty (now : Z) : Cmd :=
  on_d (set_dirty true) ;;
  on_d (set_timer (Some (now + 1000))).

Definition onEditorAboutToClose (docs : Documents) (editor : IEditor) : Cmd :=
  self <- get ;;
  if bool_decide (lastEditor (d self) <> Some editor) then ret tt
  else
    let doc := document editor in
    disconnect doc ;;
    self <- get ;;
    when (dirty (d self))
      (on_d (set_dirty false) ;;
       run_contents (docContents (docs doc))) ;;
    on_d (set_lastEditor None).

(** The lambda connected to [QTimer::timeout]. *)
Definition onTimeout (docs : Documents) : Cmd :=
  self <- get ;;
  match lastEditor (d self) with
  | Some e =>
      when (dirty (d self))
        (on_d (set_dirty false) ;;
         run_contents (docContents (docs (document e))))
  | None => ret tt
  end.

(** The event loop looks at the timer at time [now]: a single-shot
    timer that is due stops and fires; one that is not due, or not
    running, does nothing. *)
Definition timerEvent (now : Z) (docs : Documents) : Cmd :=
  self <- get ;;
  match timer (d self) with
  | Some due =>
      if due <=? now then on_d (set_timer None) ;; onTimeout docs
      else ret tt
  | None => ret tt
  end.

(** A document emits [contentsChanged]: every connection made to
    [setDirty] for that document calls the slot. *)
Definition documentChanged (now : Z) (doc : nat) : Cmd :=
  self <- get ;;
  forEach (List.filter (fun c => Nat.eqb c doc) (connections (d self)))
          (fun _ => setDirty now).

End ExtraCompiler.

Arguments ExtraCompiler : clear implicits.
Arguments Cmd : clear implicits.

(** ** ProcessExtraCompiler *)

(** What the subclass adds to the object.  [m_watcher] is the pointer the
    class keeps; [watchers] are the [QFutureWatcher] objects that exist
    (created, not yet deleted) with [finished] connected to [cleanUp];
    [futures] holds, per future, the result the worker reported, if any;
    [nextWatcher] numbers the objects in the order of their creation. *)
Record ProcessMembers : Type := mkMembers {
  m_watcher : option nat;
  watchers : list nat;
  futures : gmap nat FileNameToContentsHash;
  nextWatcher : nat
}.

Definition noWatcher : ProcessMembers := mkMembers None [] ∅ 0%nat.

(** The spawned process and the future interface as the worker thread
    observes them. *)
Record QProcess : Type := mkProcess {
  waitForStarted : bool;
  waitForFinished200 : nat -> bool;  (* outcome of the i-th waitForFinished(200) *)
  stateRunning : bool;               (* state() == QProcess::Running after the wait *)
  exitCode : Z;
  standardOutput : QByteArray;
  standardError : QByteArray
}.

Record QFutureInterface : Type := mkFutureInterface {
  isCanceled : nat -> bool           (* outcome of the i-th isCanceled() *)
}.

Inductive ProcessCall : Type :=
| start (cmd : FilePath) (args : list string) (workDir : FilePath) (env : Environment)
| handleProcessError
| handleProcessStarted (sourceContents : QByteArray)
| kill
| reportResult.

(** What one execution on the worker thread did: the calls made on the
    process, and the value handed to [reportResult], if any. *)
Record Outcome : Type := mkOutcome {
  calls : list ProcessCall;
  reported : option FileNameToContentsHash
}.

Definition evalProvider (fs : FileSystem) (provider : ContentProvider) : QByteArray :=
  match provider with
  | ProvideBytes sourceContents => sourceContents
  | ProvideFile fileName =>
      match openRead fs fileName with
      | Some bytes => bytes
      | None => QNull
      end
  end.

Definition pathIsEmpty (f : FilePath) : bool := bool_decide (f = EmptyString).

Section ProcessExtraCompiler.
(** The override points of the class, and the environment
    [buildEnvironment] obtains from the project. *)
Variable command : FilePath.
Variable workingDirectory : FilePath.
Variable arguments : list string.
Variable prepareToRun : QByteArray -> bool.
Variable handleProcessFinished : QProcess -> FileNameToContentsHash.
Variable buildEnvironment : Environment.

Definition ProcessExtraCompiler := ExtraCompiler ProcessMembers.
Definition PCmd := Cmd ProcessMembers.

Definition on_sub (f : ProcessMembers -> ProcessMembers) : PCmd :=
  modify (fun self => mkCompiler (d self) (f (sub self))).

Definition forget (w : nat) (m : ProcessMembers) : ProcessMembers :=
  mkMembers (m_watcher m)
            (List.filter (fun x => negb (Nat.eqb x w)) (watchers m))
            (futures m) (nextWatcher m).

(** A new watcher is given a new future, which holds no result yet. *)
Definition track (w : nat) (m : ProcessMembers) : ProcessMembers :=
  mkMembers (Some w) (w :: watchers m) (delete w (futures m)) (S (nextWatcher m)).

Definition untrack (m : ProcessMembers) : ProcessMembers :=
  mkMembers None (watchers m) (futures m) (nextWatcher m).

Definition runImpl (provider : ContentProvider) : PCmd :=
  self <- get ;;
  match m_watcher (sub self) with
  | Some old => on_sub (forget old) ;; emit (deleteWatcher old)
  | None => ret tt
  end ;;
  self <- get ;;
  let w := nextWatcher (sub self) in
  on_sub (track w) ;;
  emit (newWatcher w) ;;
  emit (runAsync w (mkJob command workingDirectory arguments provider
                          buildEnvironment)).

Definition run_contents (sourceContents : QByteArray) : PCmd :=
  runImpl (ProvideBytes sourceContents).

Definition run_file (fileName : FilePath) : PCmd :=
  runImpl (ProvideFile fileName).

Definition destructor : PCmd :=
  self <- get ;;
  match m_watcher (sub self) with
  | None => ret tt
  | Some w => emit (cancel w) ;; emit (waitForFinished w)
  end.

(** The [forever] loop: [i] polls are behind us.  [None] when the fuel
    runs out with the process neither done nor cancelled. *)
Fixpoint pollLoop (fuel : nat) (proc : QProcess) (fi : QFutureInterface)
         (i : nat) : option bool :=
  match fuel with
  | O => None
  | S fuel' =>
      let done := waitForFinished200 proc i in
      let canceled := isCanceled fi (S i) in
      if done || canceled then Some canceled
      else pollLoop fuel' proc fi (S i)
  end.

Definition runInThread (fuel : nat) (fs : FileSystem) (proc : QProcess)
           (fi : QFutureInterface) (job : Job) : option Outcome :=
  let cmd := job_cmd job in
  if pathIsEmpty cmd || negb (isExecutable fs cmd) then
    Some (mkOutcome [] None)
  else
    let sourceContents := evalProvider fs (job_provider job) in
    if isNull sourceContents || negb (prepareToRun sourceContents) then
      Some (mkOutcome [] None)
    else
      let spawn := start cmd (job_args job) (job_workDir job) (job_env job) in
      if negb (waitForStarted proc) then
        Some (mkOutcome [spawn; handleProcessError] None)
      else
        let canceled0 := isCanceled fi 0%nat in
        let waited :=
          if canceled0 then Some (true, [spawn])
          else match pollLoop fuel proc fi 0%nat with
               | Some c => Some (c, [spawn; handleProcessStarted sourceContents])
               | None => None
               end in
        match waited with
        | None => None
        | Some (canceled, sofar) =>
            if canceled || stateRunning proc then
              Some (mkOutcome (sofar ++ [kill]) None)
            else
              Some (mkOutcome (sofar ++ [reportResult])
                              (Some (handleProcessFinished proc)))
        end.

Definition installAll (data : FileNameToContentsHash) : PCmd :=
  forEach data (fun kv => setContent (fst kv) (snd kv)).

Definition cleanUp (now : Z) : PCmd :=
  self <- get ;;
  match m_watcher (sub self) with
  | None => ret tt
  | Some w =>
      let future := futures (sub self) !! w in
      on_sub (forget w) ;;
      emit (deleteWatcher w) ;;
      on_sub untrack ;;
      match future with
      | None => ret tt
      | Some data =>
          if isEmpty data then ret tt
          else installAll data ;; setCompileTime (Some now)
      end
  end.

(** The worker thread stores a result in the future of watcher [w]. *)
Definition storeResult (w : nat) (data : FileNameToContentsHash) : PCmd :=
  on_sub (fun m => mkMembers (m_watcher m) (watchers m)
                             (<[w := data]> (futures m)) (nextWatcher m)).

(** The future of watcher [w] finishes.  The signal reaches [cleanUp]
    only through a watcher object that still exists. *)
Definition futureFinished (now : Z) (w : nat) : PCmd :=
  self <- get ;;
  if bool_decide (w ∈ watchers (sub self)) then cleanUp now else ret tt.

(** The worker thread is through with the job of watcher [w]. *)
Definition workerDone (now : Z) (w : nat) (out : Outcome) : PCmd :=
  match reported out with
  | Some data => storeResult w data
  | None => ret tt
  end ;;
  futureFinished now w.

(** *** Everything that can happen to an instance *)

Inductive Event : Type :=
| buildStateChanged (fs : FileSystem) (isBuilding : Project -> bool) (proj : Project)
| currentEditorChanged (docs : Documents) (editor : option IEditor)
| editorAboutToClose (docs : Documents) (editor : IEditor)
| contentsChangedIn (now : Z) (doc : nat)
| timerTick (now : Z) (docs : Documents)
| initialRunDue
| workerReturned (now : Z) (w : nat) (out : Outcome)
| callSetContent (file : FilePath) (bytes : QByteArray)
| callSetCompileTime (time : QDateTime).

Definition handle (ev : Event) : PCmd :=
  match ev with
  | buildStateChanged fs isBuilding proj => onTargetsBuilt fs isBuilding proj
  | currentEditorChanged docs editor => onEditorChanged run_contents docs editor
  | editorAboutToClose docs editor => onEditorAboutToClose run_contents docs editor
  | contentsChangedIn now doc => documentChanged now doc
  | timerTick now docs => timerEvent run_contents now docs
  | initialRunDue => self <- get ;; run_file (source (d self))
  | workerReturned now w out => workerDone now w out
  | callSetContent file bytes => setContent file bytes
  | callSetCompileTime time => setCompileTime time
  end.

Definition handleAll (evs : list Event) : PCmd := forEach evs handle.

Definition construct (fs : FileSystem) (proj : Project) (src : FilePath)
           (tgts : list FilePath) : ProcessExtraCompiler * list Effect :=
  constructor fs proj src tgts noWatcher.

End ProcessExtraCompiler.

(** ** ExtraCompilerFactory and ExtraCompilerFactoryObserver *)

(** The two global lists, [factories] and [observers].  An object is
    known by its address. *)
Record Registries : Type := mkRegistries {
  factories : list nat;
  observers : list nat
}.

(** [QList::removeAll] and [QList::removeOne]. *)
Definition removeAll (x : nat) (l : list nat) : list nat :=
  List.filter (fun y => negb (Nat.eqb y x)) l.

Fixpoint removeOne (x : nat) (l : list nat) : list nat :=
  match l with
  | [] => []
  | y :: l' => if Nat.eqb y x then l' else y :: removeOne x l'
  end.

(** A call of [newExtraCompiler] on an observer. *)
Record Creation : Type := mkCreation {
  receiver : nat;
  newProject : Project;
  newSource : FilePath;
  newTargets : list FilePath
}.

Module ExtraCompilerFactory.

Definition constructor (this : nat) (r : Registries) : Registries :=
  mkRegistries (factories r ++ [this]) (observers r).

Definition destructor (this : nat) (r : Registries) : Registries :=
  mkRegistries (removeAll this (factories r)) (observers r).

Definition annouceCreation (proj : Project) (src : FilePath)
           (tgts : list FilePath) (r : Registries) : list Creation :=
  map (fun observer => mkCreation observer proj src tgts) (observers r).

Definition extraCompilerFactories (r : Registries) : list nat := factories r.

End ExtraCompilerFactory.

Module ExtraCompilerFactoryObserver.

Definition constructor (this : nat) (r : Registries) : Registries :=
  mkRegistries (factories r) (observers r ++ [this]).

Definition destructor (this : nat) (r : Registries) : Registries :=
  mkRegistries (factories r) (removeOne this (observers r)).

End ExtraCompilerFactoryObserver.

(** ** Vocabulary of the properties *)

(** A target that makes the scan mark the instance dirty: it is missing,
    or it was modified strictly before the source was. *)
Definition missingOrOlder (fs : FileSystem) (sourceTime : QDateTime)
           (target : FilePath) : bool :=
  match fs !! target with
  | None => true
  | Some info => dt_ltb (Some (lastModified info)) sourceTime
  end.

Definition earlier (t : QDateTime) (modified : Z) : QDateTime :=
  match t with
  | None => Some modified
  | Some c => Some (Z.min c modified)
  end.

(** The watermark the scan computes, target by target. *)
Definition scanTime (fs : FileSystem) (tgts : list FilePath) (t0 : QDateTime)
  : QDateTime :=
  fold_left (fun t target =>
               match fs !! target with
               | Some info => earlier t (lastModified info)
               | None => t
               end) tgts t0.

(** The deferred runs a log of effects asks the event loop for. *)
Definition scheduledRuns (effects : list Effect) : list (Z * FilePath) :=
  omap (fun e => match e with
                 | singleShotRun msec f => Some (msec, f)
                 | _ => None
                 end) effects.

(** The jobs a log of effects hands to the thread pool, by the content
    provider each was given. *)
Definition runs (effects : list Effect) : list ContentProvider :=
  omap (fun e => match e with
                 | runAsync _ job => Some (job_provider job)
                 | _ => None
                 end) effects.

(** Those of them that were given bytes (an editor's buffer) rather than
    a file to read. *)
Definition bufferRuns (effects : list Effect) : list QByteArray :=
  omap (fun p => match p with
                 | ProvideBytes bytes => Some bytes
                 | ProvideFile _ => None
                 end) (runs effects).

(** The targets a log of effects announces as changed. *)
Definition notifications (effects : list Effect) : list FilePath :=
  omap (fun e => match e with contentsChanged f => Some f | _ => None end) effects.

(** What the watcher bookkeeping looks like between two events: the only
    watcher object alive is the one [m_watcher] points to, it is the one
    created last, and its future holds no result yet. *)
Record watching (m : ProcessMembers) : Prop := mkWatching {
  tracked_only : watchers m = option_list (m_watcher m);
  tracked_newest : forall w, m_watcher m = Some w -> S w = nextWatcher m;
  tracked_pending : forall w, m_watcher m = Some w -> futures m !! w = None
}.

(** What [cleanUp] does with the future it took from the watcher. *)
Definition adopt (now : Z) (future : option FileNameToContentsHash) : PCmd :=
  match future with
  | None => ret tt
  | Some data =>
      if isEmpty data then ret tt
      else installAll data ;; setCompileTime (Some now)
  end.

(** The members after [runImpl]: the watcher that was tracked, if any,
    is gone; a new one is tracked, with a new future. *)
Definition afterRunImpl (m : ProcessMembers) : ProcessMembers :=
  let m' := match m_watcher m with Some old => forget old m | None => m end in
  track (nextWatcher m') m'.

(** What the editor bridge looks like between two events: bound means
    connected to exactly the bound editor's document, unbound means not
    connected and not dirty. *)
Definition bridged (p : ExtraCompilerPrivate) : Prop :=
  match lastEditor p with
  | Some e => connections p = [document e]
  | None => connections p = [] /\ dirty p = false
  end.

Definition consistent (self : ExtraCompiler ProcessMembers) : Prop :=
  watching (sub self) /\ bridged (d self).

(** Two objects that differ at most in the cache and the watermark. *)
Definition sameButCache {Sub : Type} (a b : ExtraCompiler Sub) : Prop :=
  project (d a) = project (d b) /\ source (d a) = source (d b) /\
  lastEditor (d a) = lastEditor (d b) /\ dirty (d a) = dirty (d b) /\
  timer (d a) = timer (d b) /\ connections (d a) = connections (d b) /\
  sub a = sub b.



(** The command can be run and the provider yields input that
    [prepareToRun] accepts. *)
Definition runnable (prepareToRun : QByteArray -> bool) (fs : FileSystem)
           (job : Job) : Prop :=
  pathIsEmpty (job_cmd job) = false /\
  isExecutable fs (job_cmd job) = true /\
  isNull (evalProvider fs (job_provider job)) = false /\
  prepareToRun (evalProvider fs (job_provider job)) = true.

(** Polls [0 .. k-1] saw the process still running and no cancellation. *)
Definition stillPolling (proc : QProcess) (fi : QFutureInterface) (k : nat)
  : Prop :=
  forall j, (j < k)%nat ->
    waitForFinished200 proc j = false /\ isCanceled fi (S j) = false.

(** What the loop has done to the watermark so far: nothing, or it has
    moved it forward to the time of a readable declared target that is
    newer than the source. *)
Definition advancedTo (fs : FileSystem) (sourceTime : QDateTime) (tgts : list FilePath)
           (before after : QDateTime) : Prop :=
  after = before \/
  exists target info,
    In target tgts /\ fs !! target = Some info /\ openable info = true /\
    after = Some (lastModified info) /\
    dt_gtb (Some (lastModified info)) sourceTime = true /\
    dt_ltb before (Some (lastModified info)) = true.

(** The watchers a log of effects creates, deletes and cancels. *)
Definition created (effects : list Effect) : list nat :=
  omap (fun e => match e with newWatcher w => Some w | _ => None end) effects.

Definition deleted (effects : list Effect) : list nat :=
  omap (fun e => match e with deleteWatcher w => Some w | _ => None end) effects.

Definition cancellations (effects : list Effect) : list nat :=
  omap (fun e => match e with
                 | cancel w => Some w
                 | waitForFinished w => Some w
                 | _ => None
                 end) effects.

(** A log that only announces changed targets. *)
Definition announcesOnly (effects : list Effect) : Prop :=
  Forall (fun e => exists f, e = contentsChanged f) effects.

(** A set dirty flag has an editor bound and the timer running. *)
Definition armed (p : ExtraCompilerPrivate) : Prop :=
  dirty p = true -> is_Some (lastEditor p) /\ is_Some (timer p).

(** The content-changed notifications of documents in a history. *)
Definition edits (evs : list Event) : nat :=
  length (List.filter (fun ev => match ev with
                                 | contentsChangedIn _ _ => true
                                 | _ => false
                                 end) evs).

(** Factories and observers come and go. *)
Inductive Lifetime : Type :=
| factoryBorn (this : nat)
| factoryGone (this : nat)
| observerBorn (this : nat)
| observerGone (this : nat).

Definition lives (r : Registries) (ev : Lifetime) : Registries :=
  match ev with
  | factoryBorn this => ExtraCompilerFactory.constructor this r
  | factoryGone this => ExtraCompilerFactory.destructor this r
  | observerBorn this => ExtraCompilerFactoryObserver.constructor this r
  | observerGone this => ExtraCompilerFactoryObserver.destructor this r
  end.

Definition afterLifetimes (evs : list Lifetime) : Registries :=
  fold_left lives evs (mkRegistries [] []).

(** Whether the object at an address is alive after a history: what the
    last event about that address says. *)
Definition factoryAlive (evs : list Lifetime) (p : nat) : bool :=
  fold_left (fun alive ev =>
               match ev with
               | factoryBorn q => if Nat.eqb q p then true else alive
               | factoryGone q => if Nat.eqb q p then false else alive
               | _ => alive
               end) evs false.

Definition observerAlive (evs : list Lifetime) (p : nat) : bool :=
  fold_left (fun alive ev =>
               match ev with
               | observerBorn q => if Nat.eqb q p then true else alive
               | observerGone q => if Nat.eqb q p then false else alive
               | _ => alive
               end) evs false.

(** Two living objects never share an address, and only a living object
    is destroyed. *)
Definition permitted (before : list Lifetime) (ev : Lifetime) : bool :=
  match ev with
  | factoryBorn p => negb (factoryAlive before p)
  | factoryGone p => factoryAlive before p
  | observerBorn p => negb (observerAlive before p)
  | observerGone p => observerAlive before p
  end.

Fixpoint orderly (before evs : list Lifetime) : bool :=
  match evs with
  | [] => true
  | ev :: rest => permitted before ev && orderly (before ++ [ev]) rest
  end.

(** Every target whose cached bytes differ between [s] and [s'] is named
    by a [contentsChanged] in the log [L]. *)
Definition announced {Sub : Type} (s s' : ExtraCompiler Sub) (L : list Effect)
  : Prop :=
  forall f, qba_eqb (content f s) (content f s') = false ->
            In f (notifications L).

(** A command that changes no cached bytes behind the listeners' back. *)
Definition announcing {Sub A : Type} (m : M (ExtraCompiler Sub) A) : Prop :=
  forall s, announced s (exec m s) (log m s).

(** What one event may do, as seen in its log [L] and in the object
    before and after: every watcher it creates or finds alive is deleted
    or alive afterwards; it cancels nothing; a run on buffer contents
    uses up the dirty flag, which only an edit sets; and a set flag stays
    armed. *)
Definition stepFacts (ev : Event) (s s' : ExtraCompiler ProcessMembers)
           (L : list Effect) : Prop :=
  (watchers (sub s) ++ created L)%list ≡ₚ (deleted L ++ watchers (sub s'))%list /\
  cancellations L = [] /\
  (length (bufferRuns L) + Nat.b2n (dirty (d s'))
   <= Nat.b2n (dirty (d s)) + edits [ev])%nat /\
  (armed (d s) -> armed (d s')).

(** ** A form compiled by uic, for the concrete checks *)

Definition form_ui : FilePath := "form.ui"%string.
Definition ui_form_h : FilePath := "ui_form.h"%string.
Definition uic : FilePath := "/usr/bin/uic"%string.

Definition the_form : DiskFile := mkFile 100 true false (QBytes "<ui/>").
Definition the_compiler : DiskFile := mkFile 1 true true (QBytes "ELF").

(** The header is older than the form. *)
Definition stale_disk : FileSystem :=
  <[form_ui := the_form]>
    (<[ui_form_h := mkFile 50 true false (QBytes "old")]>
       (<[uic := the_compiler]> ∅)).

(** The header has not been generated yet. *)
Definition bare_disk : FileSystem :=
  <[form_ui := the_form]> (<[uic := the_compiler]> ∅).

(** A build has written the header after the form was saved. *)
Definition built_disk : FileSystem :=
  <[ui_form_h := mkFile 200 true false (QBytes "generated")]> bare_disk.

(** The same, but the header cannot be opened for reading. *)
Definition locked_disk : FileSystem :=
  <[ui_form_h := mkFile 200 false false (QBytes "generated")]> bare_disk.



Definition uic_args : list string := ["-o"%string; ui_form_h; form_ui].

Definition form_editor : IEditor := mkEditor 1 7.

(** The documents while the form is open and has been typed into. *)
Definition typing : Documents :=
  fun _ => mkDoc form_ui (QBytes "<ui><widget/></ui>").

Definition nothingBuilding : Project -> bool := fun _ => false.

Definition handleUic : list Event -> PCmd :=
  handleAll uic EmptyString uic_args [].

Definition runUic : QByteArray -> PCmd :=
  run_contents uic EmptyString uic_args [].

Definition staleForm : ProcessExtraCompiler :=
  fst (construct stale_disk 0%nat form_ui [ui_form_h]).

Definition bareForm : ProcessExtraCompiler :=
  fst (construct bare_disk 0%nat form_ui [ui_form_h]).


(** A process that exits at once, and a future nobody cancels. *)
Definition quickProcess : QProcess :=
  mkProcess true (fun _ => true) false 0 (QBytes "#pragma once") QNull.

Definition patient : QFutureInterface := mkFutureInterface (fun _ => false).

Definition acceptAll : QByteArray -> bool := fun _ => true.

Definition headerFromStdout (proc : QProcess) : FileNameToContentsHash :=
  [(ui_form_h, standardOutput proc)].

(** A process that never exits by itself, a process that cannot be
    started, and futures cancelled before the start and after the third
    poll. *)
Definition hangingProcess : QProcess :=
  mkProcess true (fun _ => false) true 0 QNull QNull.

Definition brokenProcess : QProcess :=
  mkProcess false (fun _ => false) false 0 QNull QNull.

Definition cancelledAtOnce : QFutureInterface := mkFutureInterface (fun _ => true).

Definition cancelledLater : QFutureInterface :=
  mkFutureInterface (fun i => Nat.leb 3 i).

(** The form is open in the editor and has been typed into at time 0. *)
Definition typedForm : ProcessExtraCompiler :=
  exec (handleUic [currentEditorChanged typing (Some form_editor);
                   contentsChangedIn 0 7])
       bareForm.

(** The initial run of the bare form is on the thread pool. *)
Definition runningForm : ProcessExtraCompiler :=
  exec (handleUic [initialRunDue]) bareForm.

Definition uicJob : Job :=
  mkJob uic EmptyString uic_args (ProvideFile form_ui) [].

Definition uicOutcome : Outcome :=
  mkOutcome [start uic uic_args EmptyString [];
             handleProcessStarted (QBytes "<ui/>");
             reportResult]
            (Some [(ui_form_h, QBytes "#pragma once")]).

Definition noCommandJob : Job :=
  mkJob EmptyString EmptyString [] (ProvideBytes (QBytes "<ui/>")) [].

Ltac unfold_cmd :=
  unfold exec, log, bind, get, modify, emit, when, ret, on_d,
         setCompileTime in *.

(** Split on every test the goal still branches on. *)
Ltac split_tests :=
  repeat match goal with
         | |- context [if ?b then _ else _] => destruct b eqn:?; simpl
         | |- context [match ?o with Some _ => _ | None => _ end] =>
             destruct o eqn:?; simpl
         end.


(** Name the members of an object and unfold what consistency says of
    them. *)
Ltac open_object self :=
  let p := fresh "proj" in let src := fresh "src" in let h := fresh "h" in
  let ct := fresh "ct" in let ed := fresh "ed" in let dty := fresh "dty" in
  let tm := fresh "tm" in let conns := fresh "conns" in let m := fresh "m" in
  destruct self as [[p src h ct ed dty tm conns] m];
  unfold consistent, bridged in *; simpl in *.

(** * Properties *)

(** ** The content hash *)

Lemma find_Some_keys (f : FilePath) (h : FileNameToContentsHash) :
  In f (keys h) <-> exists v, find f h = Some v.
Proof.
  induction h as [|[k v] h IH]; simpl.
  - split; [tauto | intros [v Hv]; discriminate].
  - case_bool_decide as Hk.
    + split; [eauto | auto].
    + rewrite IH. split; [intros [?|?]; [contradiction | assumption] | auto].
Qed.

Lemma find_None_keys (f : FilePath) (h : FileNameToContentsHash) :
  ~ In f (keys h) <-> find f h = None.
Proof.
  rewrite find_Some_keys. destruct (find f h) as [v|].
  - split; [intros H; exfalso; eauto | discriminate].
  - split; [reflexivity | intros _ [v Hv]; discriminate].
Qed.

Lemma keys_assign (f : FilePath) (c : QByteArray) (h : FileNameToContentsHash) :
  keys (assign f c h) = keys h.
Proof.
  induction h as [|[k v] h IH]; simpl; [reflexivity|].
  case_bool_decide; simpl; [reflexivity | now rewrite <- IH].
Qed.

Lemma find_assign_eq (f : FilePath) (c v : QByteArray) (h : FileNameToContentsHash) :
  find f h = Some v -> find f (assign f c h) = Some c.
Proof.
  induction h as [|[k v'] h IH]; simpl; [discriminate|].
  case_bool_decide as Hk; simpl; rewrite bool_decide_decide.
  - destruct (decide (k = f)); [reflexivity | contradiction].
  - destruct (decide (k = f)); [contradiction | exact IH].
Qed.

Lemma find_assign_ne (f g : FilePath) (c : QByteArray) (h : FileNameToContentsHash) :
  f <> g -> find g (assign f c h) = find g h.
Proof.
  intros Hne. induction h as [|[k v] h IH]; simpl; [reflexivity|].
  case_bool_decide as Hk; simpl.
  - subst k. rewrite !bool_decide_decide.
    destruct (decide (f = g)); [contradiction | reflexivity].
  - destruct (bool_decide (k = g)); [reflexivity | exact IH].
Qed.

Lemma keys_insert_present (f : FilePath) (c : QByteArray) (h : FileNameToContentsHash) :
  In f (keys h) -> keys (insert_ f c h) = keys h.
Proof.
  intros [v Hv]%find_Some_keys. unfold insert_. rewrite Hv. apply keys_assign.
Qed.

Lemma keys_insert_absent (f : FilePath) (c : QByteArray) (h : FileNameToContentsHash) :
  ~ In f (keys h) -> keys (insert_ f c h) = (keys h ++ [f])%list.
Proof.
  intros Hf%find_None_keys. unfold insert_, keys. rewrite Hf.
  now rewrite map_app.
Qed.

Lemma find_app_absent (f g : FilePath) (c : QByteArray) (h : FileNameToContentsHash) :
  find g (h ++ [(f, c)]) =
  match find g h with
  | Some v => Some v
  | None => if bool_decide (f = g) then Some c else None
  end.
Proof.
  induction h as [|[k v] h IH]; simpl; [reflexivity|].
  destruct (bool_decide (k = g)); [reflexivity | exact IH].
Qed.

Lemma find_insert (f g : FilePath) (c : QByteArray) (h : FileNameToContentsHash) :
  find g (insert_ f c h) = if bool_decide (f = g) then Some c else find g h.
Proof.
  unfold insert_. destruct (find f h) as [v|] eqn:Hf.
  - case_bool_decide as Hfg.
    + subst g. eapply find_assign_eq; eassumption.
    + now apply find_assign_ne.
  - rewrite find_app_absent. case_bool_decide as Hfg.
    + subst g. now rewrite Hf.
    + now destruct (find g h).
Qed.

Lemma NoDup_keys_insert (f : FilePath) (c : QByteArray) (h : FileNameToContentsHash) :
  NoDup (keys h) -> NoDup (keys (insert_ f c h)).
Proof.
  intros Hnd. destruct (in_dec string_dec f (keys h)) as [Hin|Hout].
  - now rewrite keys_insert_present.
  - rewrite keys_insert_absent by assumption.
    apply NoDup_app. repeat split; auto.
    + intros x Hx [->|[]]%list_elem_of_In. now apply list_elem_of_In in Hx.
    + apply NoDup_cons. split; [inversion 1 | constructor].
Qed.

Lemma In_keys_insert (f g : FilePath) (c : QByteArray) (h : FileNameToContentsHash) :
  In g (keys (insert_ f c h)) <-> g = f \/ In g (keys h).
Proof.
  rewrite !find_Some_keys, find_insert. case_bool_decide as Hfg.
  - subst g. split; eauto.
  - split; [auto | intros [->|?]; [contradiction | assumption]].
Qed.

Lemma nullEntries_keys (tgts : list FilePath) (h0 : FileNameToContentsHash) (g : FilePath) :
  In g (keys (nullEntries tgts h0)) <-> In g (keys h0) \/ In g tgts.
Proof.
  revert h0. induction tgts as [|t tgts IH]; intros h0; simpl; [tauto|].
  rewrite IH, In_keys_insert. intuition congruence.
Qed.

Lemma nullEntries_NoDup (tgts : list FilePath) (h0 : FileNameToContentsHash) :
  NoDup (keys h0) -> NoDup (keys (nullEntries tgts h0)).
Proof.
  revert h0. induction tgts as [|t tgts IH]; intros h0 Hnd; simpl; [exact Hnd|].
  apply IH, NoDup_keys_insert, Hnd.
Qed.

Lemma nullEntries_values (tgts : list FilePath) (h0 : FileNameToContentsHash) :
  (forall g v, find g h0 = Some v -> v = QNull) ->
  forall g v, find g (nullEntries tgts h0) = Some v -> v = QNull.
Proof.
  revert h0. induction tgts as [|t tgts IH]; intros h0 Hnull; simpl; [exact Hnull|].
  apply IH. intros g v. rewrite find_insert.
  case_bool_decide; [congruence | apply Hnull].
Qed.

Lemma qba_eqb_refl (a : QByteArray) : qba_eqb a a = true.
Proof. unfold qba_eqb. now apply bool_decide_eq_true. Qed.

(** ** The monad *)

Lemma exec_bind {S A B} (m : M S A) (k : A -> M S B) (s : S) :
  exec (bind m k) s = exec (k (fst (fst (m s)))) (exec m s).
Proof.
  unfold exec, bind. destruct (m s) as [[a s1] e1]. simpl.
  destruct (k a s1) as [[b s2] e2]. reflexivity.
Qed.

Lemma log_bind {S A B} (m : M S A) (k : A -> M S B) (s : S) :
  log (bind m k) s = (log m s ++ log (k (fst (fst (m s)))) (exec m s))%list.
Proof.
  unfold exec, log, bind. destruct (m s) as [[a s1] e1]. simpl.
  destruct (k a s1) as [[b s2] e2]. reflexivity.
Qed.

Lemma bind_run {S A B} (m : M S A) (k : A -> M S B) (s s1 s2 : S)
      (a : A) (b : B) (e1 e2 : list Effect) :
  m s = (a, s1, e1) -> k a s1 = (b, s2, e2) ->
  bind m k s = (b, s2, (e1 ++ e2)%list).
Proof. intros Hm Hk. unfold bind. now rewrite Hm, Hk. Qed.


(** An invariant of the loop body is an invariant of the loop. *)
Lemma forEach_invariant {S A} (P : S -> Prop) (l : list A) (body : A -> M S unit) :
  (forall x s, P s -> P (exec (body x) s)) ->
  forall s, P s -> P (exec (forEach l body) s).
Proof.
  intros Hbody. induction l as [|x l IH]; intros s Hs; simpl; [exact Hs|].
  rewrite exec_bind. apply IH, Hbody, Hs.
Qed.

(** ** setContent *)

Section ContentStore.
Context {Sub : Type}.
Implicit Types (self : ExtraCompiler Sub) (file : FilePath) (bytes : QByteArray).

Lemma setContent_undeclared self file bytes :
  ~ In file (targets self) ->
  setContent file bytes self = (tt, self, []).
Proof.
  intros Hf%find_None_keys. unfold setContent, bind, get. now rewrite Hf.
Qed.

Lemma setContent_same self file bytes cached :
  find file (contents (d self)) = Some cached ->
  qba_eqb cached bytes = true ->
  setContent file bytes self = (tt, self, []).
Proof.
  intros Hf Heq. unfold setContent, bind, get. now rewrite Hf, Heq.
Qed.

Lemma setContent_differs self file bytes cached :
  find file (contents (d self)) = Some cached ->
  qba_eqb cached bytes = false ->
  setContent file bytes self =
    (tt, mkCompiler (set_contents (assign file bytes (contents (d self))) (d self))
                    (sub self),
     [contentsChanged file]).
Proof.
  intros Hf Hne. unfold setContent, bind, get. now rewrite Hf, Hne.
Qed.

Lemma setContent_keys self file bytes :
  targets (exec (setContent file bytes) self) = targets self.
Proof.
  unfold exec, setContent, bind, get, targets.
  destruct (find file (contents (d self))) as [cached|]; [|reflexivity].
  destruct (qba_eqb cached bytes); simpl; [reflexivity | apply keys_assign].
Qed.

Lemma setContent_frame self file bytes :
  let self' := exec (setContent file bytes) self in
  compileTime (d self') = compileTime (d self) /\
  dirty (d self') = dirty (d self) /\
  lastEditor (d self') = lastEditor (d self) /\
  timer (d self') = timer (d self) /\
  connections (d self') = connections (d self) /\
  source (d self') = source (d self) /\
  project (d self') = project (d self) /\
  sub self' = sub self.
Proof.
  unfold exec, setContent, bind, get.
  destruct (find file (contents (d self))) as [cached|]; [|simpl; tauto].
  destruct (qba_eqb cached bytes); simpl; tauto.
Qed.

Lemma setContent_frame_all self file bytes :
  sameButCache (exec (setContent file bytes) self) self.
Proof.
  pose proof (setContent_frame self file bytes) as H. cbn zeta in H.
  unfold sameButCache. tauto.
Qed.

Lemma content_setContent_eq self file bytes :
  In file (targets self) ->
  constData (content file (exec (setContent file bytes) self)) = constData bytes.
Proof.
  intros [cached Hc]%find_Some_keys.
  destruct (qba_eqb cached bytes) eqn:Hcmp.
  - unfold exec. rewrite (setContent_same _ _ _ _ Hc Hcmp). simpl.
    unfold content, value. rewrite Hc. simpl.
    unfold qba_eqb in Hcmp. now apply bool_decide_eq_true in Hcmp.
  - unfold exec. rewrite (setContent_differs _ _ _ _ Hc Hcmp). simpl.
    unfold content, value. simpl.
    now rewrite (find_assign_eq _ _ _ _ Hc).
Qed.

Lemma content_setContent_ne self file other bytes :
  other <> file ->
  content other (exec (setContent file bytes) self) = content other self.
Proof.
  intros Hne. unfold exec, setContent, bind, get, content, value.
  destruct (find file (contents (d self))) as [cached|]; [|reflexivity].
  destruct (qba_eqb cached bytes); simpl; [reflexivity|].
  rewrite find_assign_ne; auto.
Qed.

(** C5.  For a declared target, [setContent] replaces the cached bytes
    and emits [contentsChanged] for that target exactly when the new
    bytes differ from the cached ones (then no other entry changes);
    otherwise the object is left as it was and nothing is emitted.
    Calling it a second time with the same bytes emits nothing, so the
    two calls together emit at most one notification, and the cache then
    compares equal to the input. *)
Theorem setContent_replaces_iff_differs self file bytes :
  In file (targets self) ->
  let first := setContent file bytes in
  let self' := exec first self in
  (qba_eqb (content file self) bytes = false ->
     content file self' = bytes /\
     log first self = [contentsChanged file] /\
     forall other, other <> file -> content other self' = content other self) /\
  (qba_eqb (content file self) bytes = true ->
     self' = self /\ log first self = []) /\
  (log first self = [contentsChanged file] <->
     qba_eqb (content file self) bytes = false) /\
  log first self' = [] /\
  (length (log first self ++ log first self') <= 1)%nat /\
  qba_eqb (content file (exec first self')) bytes = true.
Proof.
  intros [cached Hc]%find_Some_keys. cbn zeta.
  assert (Hcontent : content file self = cached)
    by (unfold content, value; now rewrite Hc).
  rewrite Hcontent.
  destruct (qba_eqb cached bytes) eqn:Hcmp.
  - pose proof (setContent_same _ _ _ _ Hc Hcmp) as Hsame.
    assert (Hexec : exec (setContent file bytes) self = self)
      by (unfold exec; now rewrite Hsame).
    assert (Hlog : log (setContent file bytes) self = [])
      by (unfold log; now rewrite Hsame).
    rewrite !Hexec, !Hlog, Hcontent. repeat split; try discriminate; auto.
  - pose proof (setContent_differs _ _ _ _ Hc Hcmp) as Hdiff.
    set (self' := mkCompiler
           (set_contents (assign file bytes (contents (d self))) (d self))
           (sub self)) in *.
    assert (Hexec : exec (setContent file bytes) self = self')
      by (unfold exec; now rewrite Hdiff).
    assert (Hlog : log (setContent file bytes) self = [contentsChanged file])
      by (unfold log; now rewrite Hdiff).
    assert (Hc' : find file (contents (d self')) = Some bytes)
      by (simpl; eapply find_assign_eq; eassumption).
    pose proof (setContent_same self' file bytes bytes Hc' (qba_eqb_refl _))
      as Hsame.
    assert (Hexec' : exec (setContent file bytes) self' = self')
      by (unfold exec; now rewrite Hsame).
    assert (Hlog' : log (setContent file bytes) self' = [])
      by (unfold log; now rewrite Hsame).
    assert (Hnew : content file self' = bytes)
      by (unfold content, value; now rewrite Hc').
    rewrite Hexec, Hlog, Hexec', Hlog', Hnew.
    repeat split; try discriminate; auto using qba_eqb_refl.
    intros other Hne. unfold content, value. simpl.
    rewrite find_assign_ne; auto.
Qed.

End ContentStore.

(** ** The constructor *)

Section Construction.
Context {Sub : Type}.
Implicit Types (self : ExtraCompiler Sub) (fs : FileSystem).

Lemma scanTarget_dirty fs sourceTime target self :
  dirty (d (exec (scanTarget fs sourceTime target) self))
  = dirty (d self) || missingOrOlder fs sourceTime target.
Proof.
  unfold scanTarget, missingOrOlder, openRead.
  destruct (fs !! target) as [info|].
  - rewrite !exec_bind.
    match goal with |- context [exec (match ?o with _ => _ end) ?s] =>
      assert (Hd : dirty (d (exec (match o with
                                   | Some bytes => setContent target bytes
                                   | None => ret tt end) s)) = dirty (d s))
    end.
    { destruct (openable info); [apply setContent_frame | reflexivity]. }
    rewrite Hd. clear Hd.
    destruct (dt_ltb (Some (lastModified info)) sourceTime);
      unfold_cmd; simpl;
      destruct (compileTime (d self)) as [c|]; simpl;
      try destruct (Z.ltb (lastModified info) c); simpl;
      rewrite ?orb_true_r, ?orb_false_r; reflexivity.
  - unfold_cmd. simpl. now rewrite orb_true_r.
Qed.

Lemma scanTarget_compileTime fs sourceTime target self :
  compileTime (d (exec (scanTarget fs sourceTime target) self))
  = match fs !! target with
    | Some info => earlier (compileTime (d self)) (lastModified info)
    | None => compileTime (d self)
    end.
Proof.
  unfold scanTarget, openRead.
  destruct (fs !! target) as [info|]; [|reflexivity].
  rewrite !exec_bind.
  match goal with |- context [exec (match ?o with _ => _ end) ?s] =>
    assert (Hd : compileTime (d (exec (match o with
                                 | Some bytes => setContent target bytes
                                 | None => ret tt end) s)) = compileTime (d s))
  end.
  { destruct (openable info); [apply setContent_frame | reflexivity]. }
  rewrite Hd. clear Hd.
  destruct self as [[proj src h [c|] ed dty tm conns] sub0];
    destruct (dt_ltb (Some (lastModified info)) sourceTime);
    unfold_cmd; simpl; try reflexivity;
    unfold dt_gtb, dt_ltb;
    destruct (Z.ltb_spec (lastModified info) c); simpl; f_equal; lia.
Qed.

(** What a round of the scan does to the cache: it is [setContent] with
    what was read, if the target could be opened, and nothing else. *)
Lemma scanTarget_contents fs sourceTime target self :
  contents (d (exec (scanTarget fs sourceTime target) self))
  = match openRead fs target with
    | Some bytes => contents (d (exec (setContent target bytes) self))
    | None => contents (d self)
    end.
Proof.
  unfold scanTarget, openRead.
  destruct (fs !! target) as [info|]; [|reflexivity].
  destruct self as [[proj src h ct ed dty tm conns] sub0].
  unfold setContent. unfold_cmd. simpl. split_tests; reflexivity.
Qed.

Lemma scanTarget_keys fs sourceTime target self :
  targets (exec (scanTarget fs sourceTime target) self) = targets self.
Proof.
  unfold targets. rewrite scanTarget_contents.
  destruct (openRead fs target); [apply setContent_keys | reflexivity].
Qed.

Lemma scan_cons fs src target tgts self :
  exec (scan fs src (target :: tgts)) self
  = exec (scan fs src tgts) (exec (scanTarget fs (fileTime fs src) target) self).
Proof. unfold scan. simpl. now rewrite exec_bind. Qed.

Lemma scan_dirty fs src tgts self :
  dirty (d (exec (scan fs src tgts) self))
  = dirty (d self) || existsb (missingOrOlder fs (fileTime fs src)) tgts.
Proof.
  revert self. induction tgts as [|t tgts IH]; intros self.
  - simpl. now rewrite orb_false_r.
  - rewrite scan_cons, IH, scanTarget_dirty. simpl. now rewrite orb_assoc.
Qed.

Lemma scan_compileTime fs src tgts self :
  compileTime (d (exec (scan fs src tgts) self))
  = scanTime fs tgts (compileTime (d self)).
Proof.
  revert self. induction tgts as [|t tgts IH]; intros self; [reflexivity|].
  rewrite scan_cons, IH, scanTarget_compileTime. reflexivity.
Qed.

Lemma scan_keys fs src tgts self :
  targets (exec (scan fs src tgts) self) = targets self.
Proof.
  revert self. induction tgts as [|t tgts IH]; intros self; [reflexivity|].
  now rewrite scan_cons, IH, scanTarget_keys.
Qed.

Lemma scanTarget_frame fs sourceTime target self :
  let self' := exec (scanTarget fs sourceTime target) self in
  source (d self') = source (d self) /\ sub self' = sub self /\
  lastEditor (d self') = lastEditor (d self) /\
  connections (d self') = connections (d self) /\
  timer (d self') = timer (d self).
Proof.
  cbn zeta. unfold scanTarget.
  destruct (fs !! target) as [info|]; [|repeat split; reflexivity].
  rewrite !exec_bind.
  match goal with |- context [exec (match ?o with _ => _ end) ?s] =>
    assert (Hd : sameButCache (exec (match o with
                                     | Some bytes => setContent target bytes
                                     | None => ret tt end) s) s)
  end.
  { destruct (openRead fs target);
      [apply setContent_frame_all | unfold sameButCache; tauto]. }
  destruct Hd as (_ & -> & -> & _ & -> & -> & ->).
  destruct self as [[proj src' h ct ed dty tm conns] sub0].
  unfold_cmd. simpl. split_tests; repeat split; reflexivity.
Qed.

Lemma scan_frame fs src tgts self :
  let self' := exec (scan fs src tgts) self in
  source (d self') = source (d self) /\ sub self' = sub self /\
  lastEditor (d self') = lastEditor (d self) /\
  connections (d self') = connections (d self) /\
  timer (d self') = timer (d self).
Proof.
  revert self. induction tgts as [|t tgts IH]; intros self;
    [repeat split; reflexivity|].
  cbn zeta. rewrite scan_cons.
  destruct (IH (exec (scanTarget fs (fileTime fs src) t) self))
    as (-> & -> & -> & -> & ->).
  apply scanTarget_frame.
Qed.

(** A round of the scan leaves every other target's entry alone. *)
Lemma scanTarget_content_ne fs sourceTime target other self :
  other <> target ->
  content other (exec (scanTarget fs sourceTime target) self) = content other self.
Proof.
  intros Hne. unfold content. rewrite scanTarget_contents.
  destruct (openRead fs target) as [bytes|]; [|reflexivity].
  now apply content_setContent_ne.
Qed.

Lemma scanTarget_content_eq fs sourceTime target bytes self :
  In target (targets self) ->
  openRead fs target = Some bytes ->
  constData (content target (exec (scanTarget fs sourceTime target) self))
  = constData bytes.
Proof.
  intros Hin Hopen. unfold content. rewrite scanTarget_contents, Hopen.
  now apply content_setContent_eq.
Qed.

Lemma scanTarget_content_closed fs sourceTime target self :
  openRead fs target = None ->
  contents (d (exec (scanTarget fs sourceTime target) self)) = contents (d self).
Proof. intros Hopen. now rewrite scanTarget_contents, Hopen. Qed.

(** Once a readable target is in the cache the rest of the scan keeps it
    there: a second visit finds equal bytes and changes nothing. *)
Lemma scan_keeps_loaded fs src tgts t bytes self :
  In t (targets self) ->
  openRead fs t = Some bytes ->
  constData (content t self) = constData bytes ->
  constData (content t (exec (scan fs src tgts) self)) = constData bytes.
Proof.
  intros Hin Hopen. revert self Hin.
  induction tgts as [|x tgts IH]; intros self Hin Hc; [exact Hc|].
  rewrite scan_cons. apply IH.
  - now rewrite scanTarget_keys.
  - destruct (decide (x = t)) as [->|Hne].
    + now apply scanTarget_content_eq.
    + rewrite scanTarget_content_ne; auto.
Qed.

Lemma scan_loads fs src tgts t bytes self :
  In t tgts ->
  In t (targets self) ->
  openRead fs t = Some bytes ->
  constData (content t (exec (scan fs src tgts) self)) = constData bytes.
Proof.
  intros Ht Hin Hopen. revert self Hin.
  induction tgts as [|x tgts IH]; intros self Hin; [contradiction|].
  rewrite scan_cons. destruct (decide (x = t)) as [->|Hne].
  - apply scan_keeps_loaded; auto.
    + now rewrite scanTarget_keys.
    + now apply scanTarget_content_eq.
  - destruct Ht as [Ht|Ht]; [contradiction|].
    apply IH; auto. now rewrite scanTarget_keys.
Qed.

Lemma scan_skips_closed fs src tgts t self :
  openRead fs t = None ->
  content t (exec (scan fs src tgts) self) = content t self.
Proof.
  intros Hopen. revert self.
  induction tgts as [|x tgts IH]; intros self; [reflexivity|].
  rewrite scan_cons, IH. destruct (decide (x = t)) as [->|Hne].
  - unfold content. now rewrite scanTarget_content_closed.
  - now apply scanTarget_content_ne.
Qed.

Lemma scanTime_absent fs tgts t0 :
  (forall t, In t tgts -> fs !! t = None) -> scanTime fs tgts t0 = t0.
Proof.
  revert t0. induction tgts as [|x tgts IH]; intros t0 Hnone; [reflexivity|].
  simpl. rewrite (Hnone x) by now left. apply IH. intros t Ht. apply Hnone. now right.
Qed.

Lemma scanTime_below fs tgts c :
  exists m, scanTime fs tgts (Some c) = Some m /\ m <= c.
Proof.
  revert c. induction tgts as [|x tgts IH]; intros c; simpl.
  - exists c. split; [reflexivity | lia].
  - destruct (fs !! x) as [info|]; [|apply IH].
    simpl. destruct (IH (Z.min c (lastModified info))) as (m & -> & Hm).
    exists m. split; [reflexivity | lia].
Qed.

Lemma scanTime_lower_bound fs tgts t0 t info :
  In t tgts -> fs !! t = Some info ->
  exists m, scanTime fs tgts t0 = Some m /\ m <= lastModified info.
Proof.
  revert t0. induction tgts as [|x tgts IH]; intros t0 Hin Hinfo; [contradiction|].
  simpl. destruct Hin as [->|Hin].
  - rewrite Hinfo. destruct t0 as [c|]; simpl.
    + destruct (scanTime_below fs tgts (Z.min c (lastModified info))) as (m & -> & Hm).
      exists m. split; [reflexivity | lia].
    + apply scanTime_below.
  - now apply IH.
Qed.

Lemma scanTime_attained fs tgts t0 m :
  scanTime fs tgts t0 = Some m ->
  t0 = Some m \/
  exists t info, In t tgts /\ fs !! t = Some info /\ lastModified info = m.
Proof.
  revert t0. induction tgts as [|x tgts IH]; intros t0 Hm; [now left|].
  simpl in Hm. apply IH in Hm as [Hm | (t & info & Hin & Hinfo & Heq)].
  - destruct (fs !! x) as [info|] eqn:Hx; [|now left].
    destruct t0 as [c|]; simpl in Hm; injection Hm as <-.
    + destruct (Z.min_spec c (lastModified info)) as [[_ ->]|[_ ->]];
        [now left | right; exists x, info; repeat split; auto; now left].
    + right. exists x, info. repeat split; auto. now left.
  - right. exists t, info. repeat split; auto. now right.
Qed.

Lemma scheduledRuns_app (e1 e2 : list Effect) :
  scheduledRuns (e1 ++ e2) = (scheduledRuns e1 ++ scheduledRuns e2)%list.
Proof. unfold scheduledRuns. apply omap_app. Qed.

Lemma setContent_schedules_nothing self file bytes :
  scheduledRuns (log (setContent file bytes) self) = [].
Proof.
  unfold log, setContent, bind, get.
  destruct (find file (contents (d self))) as [cached|]; [|reflexivity].
  destruct (qba_eqb cached bytes); reflexivity.
Qed.

Lemma scanTarget_schedules_nothing fs sourceTime target self :
  scheduledRuns (log (scanTarget fs sourceTime target) self) = [].
Proof.
  unfold scanTarget. destruct (fs !! target) as [info|]; [|reflexivity].
  rewrite !log_bind, !scheduledRuns_app.
  assert (Hsilent : forall b f (s : ExtraCompiler Sub),
             scheduledRuns (log (when b (on_d f)) s) = [])
    by (intros [] f s; reflexivity).
  rewrite !Hsilent. simpl.
  destruct (openRead fs target); [apply setContent_schedules_nothing | reflexivity].
Qed.

Lemma scan_schedules_nothing fs src tgts self :
  scheduledRuns (log (scan fs src tgts) self) = [].
Proof.
  revert self. induction tgts as [|t tgts IH]; intros self; [reflexivity|].
  unfold scan. simpl. rewrite log_bind, scheduledRuns_app.
  rewrite scanTarget_schedules_nothing. apply IH.
Qed.

Lemma initial_targets proj src tgts (sub0 : Sub) t :
  In t (targets (initial proj src tgts sub0)) <-> In t tgts.
Proof.
  unfold targets, initial. simpl. rewrite nullEntries_keys. simpl. tauto.
Qed.

Lemma initial_content proj src tgts (sub0 : Sub) t :
  content t (initial proj src tgts sub0) = QNull.
Proof.
  unfold content, value, initial. simpl.
  destruct (find t (nullEntries tgts [])) as [v|] eqn:Hv; [|reflexivity].
  simpl. eapply nullEntries_values; [|exact Hv]. intros g w; discriminate.
Qed.

Lemma scheduleInitialRun_spec self :
  scheduleInitialRun self =
  (tt, mkCompiler (set_dirty false (d self)) (sub self),
   if dirty (d self) then [singleShotRun 0 (source (d self))] else []).
Proof.
  unfold scheduleInitialRun. unfold_cmd.
  destruct self as [[proj src h ct ed [] tm conns] sub0]; reflexivity.
Qed.

Lemma constructor_unfold fs proj src tgts (sub0 : Sub) :
  let scanned := exec (scan fs src tgts) (initial proj src tgts sub0) in
  constructor fs proj src tgts sub0 =
  (mkCompiler (set_dirty false (d scanned)) (sub scanned),
   (log (scan fs src tgts) (initial proj src tgts sub0)
    ++ if dirty (d scanned) then [singleShotRun 0 src] else [])%list).
Proof.
  cbn zeta. unfold constructor. rewrite exec_bind, log_bind.
  unfold exec at 1, log at 2. rewrite scheduleInitialRun_spec. simpl.
  destruct (scan_frame fs src tgts (initial proj src tgts sub0)) as [-> _].
  reflexivity.
Qed.

(** C3, as the code has it.  After construction: every target that
    could be opened for reading has its bytes in the cache, and one that
    could not keeps its null entry; the scan ends dirty exactly when some
    target is missing or was modified strictly before the source; the
    watermark is the earliest modification time among the targets present
    on disk, invalid if there is none; and the one deferred run of the
    source file is scheduled exactly when the scan ended dirty, the flag
    being cleared as the run is scheduled. *)
Theorem constructor_scans_targets fs proj src tgts (sub0 : Sub) :
  let scanned := exec (scan fs src tgts) (initial proj src tgts sub0) in
  let self := fst (constructor fs proj src tgts sub0) in
  let effects := snd (constructor fs proj src tgts sub0) in
  (forall t bytes, In t tgts -> openRead fs t = Some bytes ->
                   qba_eqb (content t self) bytes = true) /\
  (forall t, In t tgts -> openRead fs t = None -> content t self = QNull) /\
  (dirty (d scanned) = true <->
   exists t, In t tgts /\
     (fs !! t = None \/
      exists info, fs !! t = Some info /\
        dt_ltb (Some (lastModified info)) (fileTime fs src) = true)) /\
  ((forall t, In t tgts -> fs !! t = None) -> compileTime (d self) = None) /\
  (forall t info, In t tgts -> fs !! t = Some info ->
     exists m, compileTime (d self) = Some m /\ m <= lastModified info) /\
  (forall m, compileTime (d self) = Some m ->
     exists t info, In t tgts /\ fs !! t = Some info /\ lastModified info = m) /\
  scheduledRuns effects = (if dirty (d scanned) then [(0, src)] else []) /\
  dirty (d self) = false.
Proof.
  cbn zeta. rewrite constructor_unfold. simpl.
  set (start := initial proj src tgts sub0).
  assert (Hct : compileTime (d (exec (scan fs src tgts) start))
                = scanTime fs tgts None) by now rewrite scan_compileTime.
  repeat split.
  - intros t bytes Hin Hopen. unfold qba_eqb. apply bool_decide_eq_true.
    change (constData (content t (exec (scan fs src tgts) start)) = constData bytes).
    apply scan_loads; auto. now apply initial_targets.
  - intros t Hin Hopen.
    change (content t (exec (scan fs src tgts) start) = QNull).
    rewrite scan_skips_closed by assumption. apply initial_content.
  - rewrite scan_dirty. simpl. intros (t & Hin & Hstale)%existsb_exists.
    exists t. split; [assumption|]. unfold missingOrOlder in Hstale.
    destruct (fs !! t) as [info|]; [right; eauto | now left].
  - intros (t & Hin & Hstale). rewrite scan_dirty. simpl.
    apply existsb_exists. exists t. split; [assumption|].
    unfold missingOrOlder. destruct Hstale as [-> | (info & -> & Hlt)]; auto.
  - intros Hnone. rewrite Hct. now apply scanTime_absent.
  - intros t info Hin Hinfo. rewrite Hct. eapply scanTime_lower_bound; eauto.
  - intros m Hm. rewrite Hct in Hm.
    apply scanTime_attained in Hm as [Hm|Hm]; [discriminate | exact Hm].
  - rewrite scheduledRuns_app, scan_schedules_nothing. simpl.
    now destruct (dirty (d (exec (scan fs src tgts) start))).
Qed.

End Construction.

(** ** Reconciliation after a build *)

Section Reconciliation.
Context {Sub : Type}.
Implicit Types (self : ExtraCompiler Sub) (fs : FileSystem).

Lemma dt_geb_ltb (a b : QDateTime) : dt_geb a b = negb (dt_ltb a b).
Proof. reflexivity. Qed.

(** The round that adopts: the watermark moves first, then the bytes go
    through [setContent]. *)
Lemma adoptBuilt_adopts fs sourceTime target self info bytes :
  fs !! target = Some info ->
  dt_gtb (Some (lastModified info)) sourceTime = true ->
  dt_ltb (compileTime (d self)) (Some (lastModified info)) = true ->
  openRead fs target = Some bytes ->
  adoptBuilt fs sourceTime target self =
  setContent target bytes
    (mkCompiler (set_compileTime (Some (lastModified info)) (d self)) (sub self)).
Proof.
  intros Hinfo Hnewer Hfresh Hopen.
  unfold adoptBuilt, fileTime. rewrite Hinfo. simpl. rewrite Hnewer.
  unfold bind at 1, get. simpl. rewrite dt_geb_ltb, Hfresh, Hopen. simpl.
  unfold bind at 1, on_d, modify. simpl.
  now destruct (setContent target bytes _) as [[[] s] e].
Qed.

Lemma adoptBuilt_not_after_watermark fs sourceTime target self :
  dt_geb (compileTime (d self)) (fileTime fs target) = true ->
  adoptBuilt fs sourceTime target self = (tt, self, []).
Proof.
  intros Hold. unfold adoptBuilt.
  destruct (isValid (fileTime fs target) && dt_gtb (fileTime fs target) sourceTime);
    [|reflexivity].
  unfold bind, get. now rewrite Hold.
Qed.

Lemma adoptBuilt_not_after_source fs sourceTime target self :
  dt_gtb (fileTime fs target) sourceTime = false ->
  adoptBuilt fs sourceTime target self = (tt, self, []).
Proof.
  intros Hold. unfold adoptBuilt. now rewrite Hold, andb_false_r.
Qed.

Lemma adoptBuilt_unreadable fs sourceTime target self :
  openRead fs target = None ->
  adoptBuilt fs sourceTime target self = (tt, self, []).
Proof.
  intros Hopen. unfold adoptBuilt.
  destruct (isValid (fileTime fs target) && dt_gtb (fileTime fs target) sourceTime);
    [|reflexivity].
  unfold bind, get. rewrite Hopen.
  now destruct (dt_geb (compileTime (d self)) (fileTime fs target)).
Qed.

Lemma adoptBuilt_keys fs sourceTime target self :
  targets (exec (adoptBuilt fs sourceTime target) self) = targets self.
Proof.
  unfold adoptBuilt.
  destruct (isValid (fileTime fs target) && dt_gtb (fileTime fs target) sourceTime);
    [|reflexivity].
  rewrite exec_bind. unfold get at 1. simpl.
  destruct (dt_geb (compileTime (d self)) (fileTime fs target)); [reflexivity|].
  destruct (openRead fs target) as [bytes|]; [|reflexivity].
  rewrite exec_bind, setContent_keys. reflexivity.
Qed.

Lemma adoptAll_keys fs sourceTime tgts self :
  targets (exec (forEach tgts (adoptBuilt fs sourceTime)) self) = targets self.
Proof.
  apply (forEach_invariant (fun s => targets s = targets self)); [|reflexivity].
  intros x s Hs. now rewrite adoptBuilt_keys.
Qed.

Lemma onTargetsBuilt_up_to_date fs isBuilding proj self :
  isValid (compileTime (d self)) = true ->
  dt_geb (compileTime (d self)) (fileTime fs (source (d self))) = true ->
  onTargetsBuilt fs isBuilding proj self = (tt, self, []).
Proof.
  intros Hvalid Hfresh. unfold onTargetsBuilt, bind, get.
  destruct (bool_decide (proj <> project (d self)) || isBuilding proj);
    [reflexivity|].
  now rewrite Hvalid, Hfresh.
Qed.

Lemma onTargetsBuilt_stale fs isBuilding proj self :
  proj = project (d self) ->
  isBuilding proj = false ->
  isValid (compileTime (d self))
  && dt_geb (compileTime (d self)) (fileTime fs (source (d self))) = false ->
  onTargetsBuilt fs isBuilding proj self =
  forEach (targets self) (adoptBuilt fs (fileTime fs (source (d self)))) self.
Proof.
  intros Hproj Hbuilt Hstale. unfold onTargetsBuilt, bind at 1, get.
  rewrite bool_decide_eq_false_2 by (intros Hne; now apply Hne).
  rewrite Hbuilt, Hstale. simpl.
  now destruct (forEach _ _ self) as [[[] s] e].
Qed.

Lemma dt_ltb_trans (a b c : QDateTime) :
  dt_ltb a b = true -> dt_ltb b c = true -> dt_ltb a c = true.
Proof.
  destruct a as [x|], b as [y|], c as [z|]; simpl; try discriminate; auto.
  rewrite !Z.ltb_lt. lia.
Qed.

Lemma dt_ltb_asym (a b : QDateTime) : dt_ltb a b = true -> dt_ltb b a = false.
Proof.
  destruct a as [x|], b as [y|]; simpl; try discriminate; auto.
  rewrite Z.ltb_lt, Z.ltb_ge. lia.
Qed.

Lemma forEach_invariant_in {S A} (P : S -> Prop) (l : list A)
      (body : A -> M S unit) :
  (forall x s, In x l -> P s -> P (exec (body x) s)) ->
  forall s, P s -> P (exec (forEach l body) s).
Proof.
  induction l as [|x l IH]; intros Hbody s Hs; simpl; [exact Hs|].
  rewrite exec_bind. apply IH.
  - intros y s' Hy. apply Hbody. now right.
  - apply Hbody; [now left | exact Hs].
Qed.

(** A round of the loop either does nothing at all, or it takes a
    readable target that is newer than the source and than the
    watermark. *)
Lemma adoptBuilt_cases fs sourceTime target self :
  adoptBuilt fs sourceTime target self = (tt, self, []) \/
  exists info bytes,
    fs !! target = Some info /\ openRead fs target = Some bytes /\
    dt_gtb (Some (lastModified info)) sourceTime = true /\
    dt_ltb (compileTime (d self)) (Some (lastModified info)) = true /\
    adoptBuilt fs sourceTime target self =
    setContent target bytes
      (mkCompiler (set_compileTime (Some (lastModified info)) (d self)) (sub self)).
Proof.
  destruct (fs !! target) as [info|] eqn:Hinfo.
  2:{ left. apply adoptBuilt_not_after_source. unfold fileTime.
      rewrite Hinfo. simpl. now destruct sourceTime. }
  destruct (dt_gtb (Some (lastModified info)) sourceTime) eqn:Hnewer.
  2:{ left. apply adoptBuilt_not_after_source. unfold fileTime. now rewrite Hinfo. }
  destruct (dt_ltb (compileTime (d self)) (Some (lastModified info))) eqn:Hfresh.
  2:{ left. apply adoptBuilt_not_after_watermark. unfold fileTime, dt_geb.
      rewrite Hinfo. simpl. now rewrite Hfresh. }
  destruct (openRead fs target) as [bytes|] eqn:Hopen.
  2:{ left. now apply adoptBuilt_unreadable. }
  right. exists info, bytes. repeat split; auto.
  now apply adoptBuilt_adopts.
Qed.

Lemma adoptBuilt_advances fs sourceTime tgts target self (before : QDateTime) :
  In target tgts ->
  advancedTo fs sourceTime tgts before (compileTime (d self)) ->
  advancedTo fs sourceTime tgts before
             (compileTime (d (exec (adoptBuilt fs sourceTime target) self))).
Proof.
  intros Hin Hsofar.
  destruct (adoptBuilt_cases fs sourceTime target self)
    as [Hskip | (info & bytes & Hinfo & Hopen & Hnewer & Hfresh & Hadopt)].
  - unfold exec. now rewrite Hskip.
  - unfold exec. rewrite Hadopt.
    destruct (setContent_frame
                (mkCompiler (set_compileTime (Some (lastModified info)) (d self))
                            (sub self)) target bytes) as [Hct _].
    unfold exec in Hct. rewrite Hct. simpl.
    right. exists target, info. repeat split; auto.
    + unfold openRead in Hopen. rewrite Hinfo in Hopen.
      now destruct (openable info).
    + destruct Hsofar as [<- | (t' & info' & _ & _ & _ & Heq & _ & Hlt)];
        [exact Hfresh|].
      rewrite Heq in Hfresh. eapply dt_ltb_trans; eassumption.
Qed.






End Reconciliation.

(** ** The editor bridge, for any subclass *)

Section EditorBridge.
Context {Sub : Type}.
Variable run_contents : QByteArray -> Cmd Sub.
Implicit Types (self : ExtraCompiler Sub) (docs : Documents).

(** What both detaching handlers do to a bound instance up to the point
    where the new editor is looked at. *)
Lemma flush_dirty docs old self :
  let bytes := docContents (docs (document old)) in
  let cleared := mkCompiler (set_dirty false (unplug (document old) (d self)))
                            (sub self) in
  dirty (d self) = true ->
  (disconnect (document old) ;;
   self' <- get ;;
   when (dirty (d self'))
        (on_d (set_dirty false) ;; run_contents bytes)) self
  = (tt, exec (run_contents bytes) cleared, log (run_contents bytes) cleared).
Proof.
  cbn zeta. intros Hdirty. unfold disconnect, exec, log. unfold_cmd. simpl.
  rewrite Hdirty. simpl.
  now destruct (run_contents _ _) as [[[] s] e].
Qed.

Lemma flush_clean docs old self :
  dirty (d self) = false ->
  (disconnect (document old) ;;
   self' <- get ;;
   when (dirty (d self'))
        (on_d (set_dirty false)
         ;; run_contents (docContents (docs (document old))))) self
  = (tt, mkCompiler (unplug (document old) (d self)) (sub self), []).
Proof.
  intros Hclean. unfold disconnect. unfold_cmd. simpl. now rewrite Hclean.
Qed.

Lemma unbind_spec docs editor self :
  shows docs editor (source (d self)) = false ->
  (self' <- get ;;
   match editor with
   | Some e =>
       if shows docs editor (source (d self')) then
         on_d (set_lastEditor (Some e)) ;;
         emit (updateIssues e) ;;
         connect (document e)
       else on_d (set_lastEditor None)
   | None => on_d (set_lastEditor None)
   end) self
  = (tt, mkCompiler (set_lastEditor None (d self)) (sub self), []).
Proof.
  intros Hshows. unfold_cmd. destruct editor as [e|]; [|reflexivity].
  now rewrite Hshows.
Qed.

(** C7.  With an editor bound, both ways out of the bound state (the
    editor is about to close; the current editor changes to one that
    does not show the source) behave alike.  If the dirty flag is set,
    [run] is called once with the contents of the outgoing document as
    they are at that moment, on an object whose dirty flag is already
    cleared and whose editor is still bound, and the editor reference is
    cleared only in the state [run] returns.  If the flag is not set, the
    handler clears the reference and [run] is not called. *)
Theorem detach_runs_pending_edit docs old self :
  lastEditor (d self) = Some old ->
  let bytes := docContents (docs (document old)) in
  let cleared := mkCompiler (set_dirty false (unplug (document old) (d self)))
                            (sub self) in
  let ran := exec (run_contents bytes) cleared in
  lastEditor (d cleared) = Some old /\
  dirty (d cleared) = false /\
  (dirty (d self) = true ->
   onEditorAboutToClose run_contents docs old self
   = (tt, mkCompiler (set_lastEditor None (d ran)) (sub ran),
      log (run_contents bytes) cleared)) /\
  (dirty (d self) = false ->
   onEditorAboutToClose run_contents docs old self
   = (tt, mkCompiler (set_lastEditor None (unplug (document old) (d self)))
                     (sub self), [])) /\
  (forall editor,
     dirty (d self) = true ->
     shows docs editor (source (d ran)) = false ->
     onEditorChanged run_contents docs editor self
     = (tt, mkCompiler (set_lastEditor None (d ran)) (sub ran),
        log (run_contents bytes) cleared)) /\
  (forall editor,
     dirty (d self) = false ->
     shows docs editor (source (d self)) = false ->
     onEditorChanged run_contents docs editor self
     = (tt, mkCompiler (set_lastEditor None (unplug (document old) (d self)))
                       (sub self), [])).
Proof.
  intros Hbound. cbn zeta. repeat split.
  - exact Hbound.
  - intros Hdirty. unfold onEditorAboutToClose, disconnect. unfold_cmd.
    rewrite Hbound.
    rewrite bool_decide_eq_false_2 by (intros Hne; now apply Hne).
    simpl. rewrite Hdirty. simpl.
    destruct (run_contents _ _) as [[[] s] e]. simpl. now rewrite app_nil_r.
  - intros Hclean. unfold onEditorAboutToClose. unfold_cmd. rewrite Hbound.
    rewrite bool_decide_eq_false_2 by (intros Hne; now apply Hne).
    unfold disconnect. unfold_cmd. simpl. now rewrite Hclean.
  - intros editor Hdirty Hshows. unfold onEditorChanged.
    unfold bind at 1, get at 1. rewrite Hbound.
    erewrite bind_run;
      [| apply (flush_dirty docs old self Hdirty)
       | apply (unbind_spec docs editor _ Hshows)].
    now rewrite app_nil_r.
  - intros editor Hclean Hshows. unfold onEditorChanged.
    unfold bind at 1, get at 1. rewrite Hbound.
    erewrite bind_run;
      [| apply (flush_clean docs old self Hclean)
       | apply (unbind_spec docs editor)]; [reflexivity | exact Hshows].
Qed.

End EditorBridge.

(** ** What touches only the cache and the watermark *)

Section Frames.
Context {Sub : Type}.
Implicit Types (self : ExtraCompiler Sub) (fs : FileSystem).

Lemma sameButCache_refl self : sameButCache self self.
Proof. unfold sameButCache. tauto. Qed.

Lemma sameButCache_trans (a b c : ExtraCompiler Sub) :
  sameButCache a b -> sameButCache b c -> sameButCache a c.
Proof. unfold sameButCache. intuition congruence. Qed.

Lemma setContent_sameButCache self file bytes :
  sameButCache (exec (setContent file bytes) self) self.
Proof. apply setContent_frame_all. Qed.

Lemma setCompileTime_sameButCache self time :
  sameButCache (exec (setCompileTime time) self) self.
Proof. unfold sameButCache. unfold_cmd. simpl. tauto. Qed.

Lemma forEach_sameButCache {A} (l : list A) (body : A -> Cmd Sub) self :
  (forall x s, sameButCache (exec (body x) s) s) ->
  sameButCache (exec (forEach l body) self) self.
Proof.
  intros Hbody.
  apply (forEach_invariant (fun s => sameButCache s self));
    [|apply sameButCache_refl].
  intros x s Hs. eapply sameButCache_trans; [apply Hbody | exact Hs].
Qed.

Lemma adoptBuilt_sameButCache fs sourceTime target self :
  sameButCache (exec (adoptBuilt fs sourceTime target) self) self.
Proof.
  unfold adoptBuilt.
  destruct (isValid (fileTime fs target) && dt_gtb (fileTime fs target) sourceTime);
    [|apply sameButCache_refl].
  rewrite exec_bind. unfold get at 1. simpl.
  destruct (dt_geb (compileTime (d self)) (fileTime fs target));
    [apply sameButCache_refl|].
  destruct (openRead fs target) as [bytes|]; [|apply sameButCache_refl].
  rewrite exec_bind.
  eapply sameButCache_trans; [apply setContent_sameButCache|].
  unfold sameButCache. unfold_cmd. simpl. tauto.
Qed.

Lemma onTargetsBuilt_sameButCache fs isBuilding proj self :
  sameButCache (exec (onTargetsBuilt fs isBuilding proj) self) self.
Proof.
  unfold onTargetsBuilt. rewrite exec_bind. unfold get at 1. simpl.
  destruct (bool_decide (proj <> project (d self)) || isBuilding proj);
    [apply sameButCache_refl|].
  destruct (isValid (compileTime (d self))
            && dt_geb (compileTime (d self)) (fileTime fs (source (d self))));
    [apply sameButCache_refl|].
  apply forEach_sameButCache. intros x s. apply adoptBuilt_sameButCache.
Qed.

Lemma onTargetsBuilt_keys fs isBuilding proj self :
  targets (exec (onTargetsBuilt fs isBuilding proj) self) = targets self.
Proof.
  unfold onTargetsBuilt. rewrite exec_bind. unfold get at 1. simpl.
  destruct (bool_decide (proj <> project (d self)) || isBuilding proj);
    [reflexivity|].
  destruct (isValid (compileTime (d self))
            && dt_geb (compileTime (d self)) (fileTime fs (source (d self))));
    [reflexivity|].
  apply adoptAll_keys.
Qed.

Lemma runs_app (e1 e2 : list Effect) : runs (e1 ++ e2) = (runs e1 ++ runs e2)%list.
Proof. unfold runs. apply omap_app. Qed.





End Frames.

(** ** ProcessExtraCompiler: the tracked watcher *)

Section ProcessProperties.
Variable command : FilePath.
Variable workingDirectory : FilePath.
Variable arguments : list string.
Variable buildEnvironment : Environment.

Local Abbreviation runImpl_ :=
  (runImpl command workingDirectory arguments buildEnvironment).
Local Abbreviation run_contents_ :=
  (run_contents command workingDirectory arguments buildEnvironment).
Local Abbreviation run_file_ :=
  (run_file command workingDirectory arguments buildEnvironment).
Local Abbreviation handle_ :=
  (handle command workingDirectory arguments buildEnvironment).
Local Abbreviation handleAll_ :=
  (handleAll command workingDirectory arguments buildEnvironment).
Local Abbreviation job_ provider :=
  (mkJob command workingDirectory arguments provider buildEnvironment).

Implicit Types (self : ExtraCompiler ProcessMembers) (m : ProcessMembers).

Lemma runImpl_spec provider self :
  runImpl_ provider self =
  (tt, mkCompiler (d self) (afterRunImpl (sub self)),
   (match m_watcher (sub self) with
    | Some old => [deleteWatcher old]
    | None => []
    end ++ [newWatcher (nextWatcher (sub self));
            runAsync (nextWatcher (sub self)) (job_ provider)])%list).
Proof.
  unfold runImpl, afterRunImpl, on_sub. unfold_cmd.
  destruct self as [p [[old|] ws fut nx]]; reflexivity.
Qed.

Lemma afterRunImpl_tracks m :
  m_watcher (afterRunImpl m) = Some (nextWatcher m) /\
  nextWatcher (afterRunImpl m) = S (nextWatcher m).
Proof. unfold afterRunImpl. destruct (m_watcher m); split; reflexivity. Qed.

Lemma afterRunImpl_watching m : watching m -> watching (afterRunImpl m).
Proof.
  intros [Honly Hnewest Hpending]. unfold afterRunImpl.
  destruct m as [[old|] ws fut nx]; simpl in *; subst ws.
  - unfold track, forget. simpl. rewrite Nat.eqb_refl. split; simpl.
    + reflexivity.
    + now intros w [= <-].
    + intros w [= <-]. apply lookup_delete_eq.
  - split; simpl.
    + reflexivity.
    + now intros w [= <-].
    + intros w [= <-]. apply lookup_delete_eq.
Qed.

Lemma bridged_sameButCache self self' :
  sameButCache self' self -> bridged (d self) -> bridged (d self').
Proof.
  unfold sameButCache, bridged. intros (_ & _ & -> & -> & _ & -> & _). auto.
Qed.

Lemma consistent_sameButCache self self' :
  sameButCache self' self -> consistent self -> consistent self'.
Proof.
  intros Hsame [Hw Hb]. split.
  - destruct Hsame as (_ & _ & _ & _ & _ & _ & ->). exact Hw.
  - eapply bridged_sameButCache; eassumption.
Qed.

Lemma runImpl_consistent provider self :
  consistent self -> consistent (exec (runImpl_ provider) self).
Proof.
  intros [Hw Hb]. unfold exec. rewrite runImpl_spec. simpl.
  split; [now apply afterRunImpl_watching | exact Hb].
Qed.

Lemma cleanUp_untracked now self :
  m_watcher (sub self) = None -> cleanUp now self = (tt, self, []).
Proof. intros Hnone. unfold cleanUp, bind, get. now rewrite Hnone. Qed.

Lemma cleanUp_tracked now w self :
  m_watcher (sub self) = Some w ->
  let cleared := mkCompiler (d self) (untrack (forget w (sub self))) in
  let future := futures (sub self) !! w in
  cleanUp now self =
  (tt, exec (adopt now future) cleared,
   deleteWatcher w :: log (adopt now future) cleared).
Proof.
  intros Hw. cbn zeta. unfold cleanUp, bind at 1, get at 1. rewrite Hw.
  unfold on_sub, exec, log, adopt. unfold_cmd. simpl.
  destruct (futures (sub self) !! w) as [data|]; [|reflexivity].
  destruct (isEmpty data); [reflexivity|].
  now destruct (installAll data _) as [[[] s] e].
Qed.

Lemma installAll_sameButCache data self :
  sameButCache (exec (installAll data) self) self.
Proof.
  apply forEach_sameButCache. intros kv s. apply setContent_sameButCache.
Qed.

Lemma installAll_keys data self :
  targets (exec (installAll data) self) = targets self.
Proof.
  apply (forEach_invariant (fun s => targets s = targets self)); [|reflexivity].
  intros kv s Hs. now rewrite setContent_keys.
Qed.

Lemma adopt_sameButCache now future self :
  sameButCache (exec (adopt now future) self) self.
Proof.
  unfold adopt. destruct future as [data|]; [|apply sameButCache_refl].
  destruct (isEmpty data); [apply sameButCache_refl|].
  rewrite exec_bind.
  eapply sameButCache_trans;
    [apply setCompileTime_sameButCache | apply installAll_sameButCache].
Qed.

Lemma adopt_keys now future self :
  targets (exec (adopt now future) self) = targets self.
Proof.
  unfold adopt. destruct future as [data|]; [|reflexivity].
  destruct (isEmpty data); [reflexivity|].
  rewrite exec_bind. unfold targets at 1. unfold_cmd. simpl.
  apply installAll_keys.
Qed.


(** A worker that returns for a watcher that is not the tracked one
    leaves the object alone, apart from the result kept in its future. *)
Lemma workerDone_untracked now w out self :
  watching (sub self) ->
  m_watcher (sub self) <> Some w ->
  exists fut,
    workerDone now w out self =
    (tt, mkCompiler (d self)
                    (mkMembers (m_watcher (sub self)) (watchers (sub self))
                               fut (nextWatcher (sub self))), []) /\
    forall w', w' <> w -> fut !! w' = futures (sub self) !! w'.
Proof.
  intros [Honly _ _] Hw.
  assert (Hout : w ∉ watchers (sub self)).
  { rewrite Honly. destruct (m_watcher (sub self)) as [w'|]; simpl.
    - intros ->%list_elem_of_singleton. now apply Hw.
    - apply not_elem_of_nil. }
  unfold workerDone, storeResult, futureFinished, on_sub. unfold_cmd.
  destruct (reported out) as [data|]; simpl.
  - rewrite bool_decide_eq_false_2 by assumption.
    exists (<[w := data]> (futures (sub self))). split; [reflexivity|].
    intros w' Hne. now apply lookup_insert_ne.
  - rewrite bool_decide_eq_false_2 by assumption.
    exists (futures (sub self)). split; [now destruct self as [p []]|auto].
Qed.

(** A worker that returns for the tracked watcher: the result it
    reported, if any, is what [cleanUp] finds in the future. *)
Lemma workerDone_tracked now w out self :
  watching (sub self) ->
  m_watcher (sub self) = Some w ->
  let cleared :=
    mkCompiler (d self)
               (mkMembers None []
                          (match reported out with
                           | Some data => <[w := data]> (futures (sub self))
                           | None => futures (sub self)
                           end)
                          (nextWatcher (sub self))) in
  workerDone now w out self =
  (tt, exec (adopt now (reported out)) cleared,
   deleteWatcher w :: log (adopt now (reported out)) cleared).
Proof.
  intros [Honly _ Hpending] Hw. cbn zeta.
  specialize (Hpending w Hw). rewrite Hw in Honly. simpl in Honly.
  unfold workerDone, storeResult, futureFinished, on_sub.
  destruct self as [p [mw ws fut nx]]. simpl in *. subst mw ws.
  destruct (reported out) as [data|]; unfold bind at 1, ret, modify; simpl.
  - unfold bind at 1, get at 1. simpl.
    rewrite bool_decide_eq_true_2 by apply list_elem_of_here.
    rewrite (cleanUp_tracked now w) by reflexivity. simpl.
    unfold untrack, forget. simpl. rewrite Nat.eqb_refl. simpl.
    now rewrite lookup_insert_eq.
  - unfold bind at 1, get at 1. simpl.
    rewrite bool_decide_eq_true_2 by apply list_elem_of_here.
    rewrite (cleanUp_tracked now w) by reflexivity. simpl.
    unfold untrack, forget. simpl. rewrite Nat.eqb_refl. simpl.
    now rewrite Hpending.
Qed.

(** *** Every handler keeps the object consistent *)

Lemma onEditorChanged_consistent docs editor self :
  consistent self ->
  consistent (exec (onEditorChanged run_contents_ docs editor) self).
Proof.
  intros [Hw Hb]. open_object self.
  unfold onEditorChanged, run_contents, disconnect, connect, unplug, plug.
  unfold_cmd. simpl.
  destruct ed as [old|]; simpl.
  - subst conns. simpl. rewrite Nat.eqb_refl. simpl.
    destruct dty; simpl.
    + rewrite runImpl_spec. simpl.
      destruct editor as [e|]; simpl;
        [destruct (bool_decide (filePath (docs (document e)) = src))|]; simpl;
        (split; [now apply afterRunImpl_watching | auto]).
    + destruct editor as [e|]; simpl;
        [destruct (bool_decide (filePath (docs (document e)) = src))|]; simpl;
        (split; [assumption | auto]).
  - destruct Hb as [-> ->].
    destruct editor as [e|]; simpl;
      [destruct (bool_decide (filePath (docs (document e)) = src))|]; simpl;
      (split; [assumption | auto]).
Qed.

Lemma onEditorAboutToClose_consistent docs editor self :
  consistent self ->
  consistent (exec (onEditorAboutToClose run_contents_ docs editor) self).
Proof.
  intros [Hw Hb]. open_object self.
  unfold onEditorAboutToClose, run_contents, disconnect, unplug.
  unfold_cmd. simpl.
  case_bool_decide as Hed; simpl; [now split|].
  subst ed conns. simpl. rewrite Nat.eqb_refl. simpl.
  destruct dty; simpl.
  - rewrite runImpl_spec. simpl. split; [now apply afterRunImpl_watching | auto].
  - split; [assumption | auto].
Qed.

Lemma documentChanged_bound now doc self e :
  bridged (d self) ->
  lastEditor (d self) = Some e ->
  documentChanged now doc self =
  if Nat.eqb (document e) doc
  then (tt, mkCompiler (set_timer (Some (now + 1000)) (set_dirty true (d self)))
                       (sub self), [])
  else (tt, self, []).
Proof.
  intros Hb He. destruct self as [[proj src h ct ed dty tm conns] m].
  unfold bridged in Hb. simpl in *. subst ed conns.
  unfold documentChanged, setDirty. unfold_cmd. simpl.
  destruct (Nat.eqb (document e) doc); reflexivity.
Qed.

Lemma documentChanged_unbound now doc self :
  bridged (d self) ->
  lastEditor (d self) = None ->
  documentChanged now doc self = (tt, self, []).
Proof.
  intros Hb He. destruct self as [[proj src h ct ed dty tm conns] m].
  unfold bridged in Hb. simpl in *. subst ed. destruct Hb as [-> ->].
  reflexivity.
Qed.

Lemma documentChanged_consistent now doc self :
  consistent self -> consistent (exec (documentChanged now doc) self).
Proof.
  intros [Hw Hb]. unfold exec.
  destruct (lastEditor (d self)) as [e|] eqn:He.
  - rewrite (documentChanged_bound now doc self e) by assumption.
    destruct (Nat.eqb (document e) doc); simpl; [|now split].
    split; [assumption|]. unfold bridged in *. simpl. now rewrite He in *.
  - rewrite documentChanged_unbound by assumption. now split.
Qed.

Lemma timerEvent_consistent now docs self :
  consistent self ->
  consistent (exec (timerEvent run_contents_ now docs) self).
Proof.
  intros [Hw Hb]. open_object self.
  unfold timerEvent, onTimeout, run_contents. unfold_cmd. simpl.
  destruct tm as [due|]; simpl; [|now split].
  destruct (due <=? now); simpl; [|now split].
  destruct ed as [e|]; simpl; [|now split].
  destruct dty; simpl; [|now split].
  rewrite runImpl_spec. simpl. split; [now apply afterRunImpl_watching | auto].
Qed.

Lemma workerDone_consistent now w out self :
  consistent self -> consistent (exec (workerDone now w out) self).
Proof.
  intros [Hw Hb]. unfold exec.
  destruct (decide (m_watcher (sub self) = Some w)) as [Hyes|Hno].
  - rewrite workerDone_tracked by assumption. simpl.
    eapply consistent_sameButCache; [apply adopt_sameButCache|].
    split; simpl; [|exact Hb].
    split; simpl; [reflexivity | discriminate | discriminate].
  - destruct (workerDone_untracked now w out self Hw Hno) as (fut & -> & Hfut).
    simpl. split; simpl; [|exact Hb].
    destruct Hw as [Honly Hnewest Hpending]. split; simpl; auto.
    intros w' Hw'. rewrite Hfut; [auto | congruence].
Qed.

Lemma handle_consistent ev self :
  consistent self -> consistent (exec (handle_ ev) self).
Proof.
  intros Hc. destruct ev; simpl.
  - eapply consistent_sameButCache; [apply onTargetsBuilt_sameButCache | exact Hc].
  - now apply onEditorChanged_consistent.
  - now apply onEditorAboutToClose_consistent.
  - now apply documentChanged_consistent.
  - now apply timerEvent_consistent.
  - rewrite exec_bind. unfold get at 1. simpl. now apply runImpl_consistent.
  - now apply workerDone_consistent.
  - eapply consistent_sameButCache; [apply setContent_sameButCache | exact Hc].
  - eapply consistent_sameButCache; [apply setCompileTime_sameButCache | exact Hc].
Qed.

Lemma handleAll_consistent evs self :
  consistent self -> consistent (exec (handleAll_ evs) self).
Proof.
  apply (forEach_invariant consistent). intros ev s. apply handle_consistent.
Qed.

Lemma construct_consistent fs proj src tgts :
  consistent (fst (construct fs proj src tgts)).
Proof.
  unfold construct. rewrite constructor_unfold. simpl.
  destruct (scan_frame fs src tgts (initial proj src tgts noWatcher))
    as (_ & Hsub & Hed & Hconns & _).
  split; simpl.
  - rewrite Hsub. simpl. split; simpl; [reflexivity | discriminate | discriminate].
  - unfold bridged. simpl. rewrite Hed, Hconns. simpl. auto.
Qed.

(** *** What each handler does to the cache *)

Lemma runImpl_d provider self : d (exec (runImpl_ provider) self) = d self.
Proof. unfold exec. now rewrite runImpl_spec. Qed.

Lemma onEditorChanged_cache docs editor self :
  let self' := exec (onEditorChanged run_contents_ docs editor) self in
  contents (d self') = contents (d self) /\
  compileTime (d self') = compileTime (d self).
Proof.
  cbn zeta. destruct self as [[proj src h ct ed dty tm conns] m].
  unfold onEditorChanged, run_contents, disconnect, connect, unplug, plug.
  unfold_cmd. simpl.
  destruct ed as [old|]; simpl; [destruct dty; simpl|];
    rewrite ?runImpl_spec; simpl;
    (destruct editor as [e|]; simpl;
     [destruct (bool_decide (filePath (docs (document e)) = src))|]; simpl;
     split; reflexivity).
Qed.

Lemma onEditorAboutToClose_cache docs editor self :
  let self' := exec (onEditorAboutToClose run_contents_ docs editor) self in
  contents (d self') = contents (d self) /\
  compileTime (d self') = compileTime (d self).
Proof.
  cbn zeta. destruct self as [[proj src h ct ed dty tm conns] m].
  unfold onEditorAboutToClose, run_contents, disconnect, unplug.
  unfold_cmd. simpl.
  case_bool_decide; simpl; [split; reflexivity|].
  destruct dty; simpl; rewrite ?runImpl_spec; simpl; split; reflexivity.
Qed.

Lemma documentChanged_cache now doc self :
  let self' := exec (documentChanged now doc) self in
  contents (d self') = contents (d self) /\
  compileTime (d self') = compileTime (d self).
Proof.
  cbn zeta. unfold documentChanged. rewrite exec_bind. unfold get at 1. simpl.
  apply (forEach_invariant
           (fun s => contents (d s) = contents (d self)
                     /\ compileTime (d s) = compileTime (d self)));
    [|split; reflexivity].
  intros x s [Hc Ht]. now rewrite <- Hc, <- Ht.
Qed.

Lemma timerEvent_cache now docs self :
  let self' := exec (timerEvent run_contents_ now docs) self in
  contents (d self') = contents (d self) /\
  compileTime (d self') = compileTime (d self).
Proof.
  cbn zeta. destruct self as [[proj src h ct ed dty tm conns] m].
  unfold timerEvent, onTimeout, run_contents. unfold_cmd. simpl.
  destruct tm as [due|]; simpl; [|split; reflexivity].
  destruct (due <=? now); simpl; [|split; reflexivity].
  destruct ed as [e|]; simpl; [|split; reflexivity].
  destruct dty; simpl; rewrite ?runImpl_spec; simpl; split; reflexivity.
Qed.

Lemma workerDone_keys now w out self :
  watching (sub self) ->
  targets (exec (workerDone now w out) self) = targets self.
Proof.
  intros Hw. unfold exec.
  destruct (decide (m_watcher (sub self) = Some w)) as [Hyes|Hno].
  - rewrite workerDone_tracked by assumption. simpl. now rewrite adopt_keys.
  - now destruct (workerDone_untracked now w out self Hw Hno) as (fut & -> & _).
Qed.

Lemma handle_keys ev self :
  consistent self -> targets (exec (handle_ ev) self) = targets self.
Proof.
  intros [Hw _]. destruct ev; simpl; unfold targets.
  - apply onTargetsBuilt_keys.
  - now destruct (onEditorChanged_cache docs editor self) as [-> _].
  - now destruct (onEditorAboutToClose_cache docs editor self) as [-> _].
  - now destruct (documentChanged_cache now doc self) as [-> _].
  - now destruct (timerEvent_cache now docs self) as [-> _].
  - rewrite exec_bind. unfold get at 1. simpl. unfold run_file.
    now rewrite runImpl_d.
  - now apply workerDone_keys.
  - apply setContent_keys.
  - reflexivity.
Qed.

Lemma handleAll_cons ev evs self :
  exec (handleAll_ (ev :: evs)) self = exec (handleAll_ evs) (exec (handle_ ev) self).
Proof. unfold handleAll. simpl. now rewrite exec_bind. Qed.

Lemma handleAll_keys evs self :
  consistent self -> targets (exec (handleAll_ evs) self) = targets self.
Proof.
  revert self. induction evs as [|ev evs IH]; intros self Hc; [reflexivity|].
  rewrite handleAll_cons, IH by now apply handle_consistent.
  now apply handle_keys.
Qed.

Lemma construct_targets fs proj src tgts :
  let born := fst (construct fs proj src tgts) in
  NoDup (targets born) /\ forall t, In t (targets born) <-> In t tgts.
Proof.
  cbn zeta. unfold construct. rewrite constructor_unfold. simpl.
  change (NoDup (targets (exec (scan fs src tgts) (initial proj src tgts noWatcher)))
          /\ forall t, In t (targets (exec (scan fs src tgts)
                                           (initial proj src tgts noWatcher)))
                       <-> In t tgts).
  rewrite scan_keys. split.
  - unfold targets, initial. simpl. apply nullEntries_NoDup. constructor.
  - intros t. apply initial_targets.
Qed.

(** C9.  Whatever events an instance has handled since construction
    (reconciliation, editor events, edits, timer ticks, worker results,
    calls of [setContent] and [setCompileTime]), the keys of its content
    hash are the keys it was constructed with: each declared target
    once, and nothing else.  [setContent] for a path that is not a
    declared target changes nothing and emits nothing. *)
Theorem targets_fixed_at_construction fs proj src tgts (evs : list Event) :
  let born := fst (construct fs proj src tgts) in
  let self := exec (handleAll_ evs) born in
  targets self = targets born /\
  NoDup (targets self) /\
  (forall t, In t (targets self) <-> In t tgts) /\
  (forall file bytes, ~ In file tgts -> setContent file bytes self = (tt, self, [])).
Proof.
  cbn zeta.
  pose proof (construct_consistent fs proj src tgts) as Hc.
  pose proof (construct_targets fs proj src tgts) as [Hnd Hin]. cbn zeta in *.
  rewrite (handleAll_keys evs _ Hc). repeat split; auto.
  - now apply Hin.
  - now apply Hin.
  - intros file bytes Hout. apply setContent_undeclared.
    rewrite (handleAll_keys evs _ Hc). now rewrite Hin.
Qed.

(** *** Adopting a result *)

Lemma installAll_cons k v data self :
  exec (installAll ((k, v) :: data)) self
  = exec (installAll data) (exec (setContent k v) self).
Proof. unfold installAll. simpl. now rewrite exec_bind. Qed.

Lemma installAll_content_out k data self :
  ~ In k (keys data) ->
  content k (exec (installAll data) self) = content k self.
Proof.
  revert self. induction data as [|[k0 v0] data IH]; intros self Hout;
    [reflexivity|].
  rewrite installAll_cons, IH by (intros Hin; apply Hout; now right).
  apply content_setContent_ne. intros ->. apply Hout. now left.
Qed.

Lemma installAll_content_in k v data self :
  NoDup (keys data) -> In (k, v) data -> In k (targets self) ->
  constData (content k (exec (installAll data) self)) = constData v.
Proof.
  revert self. induction data as [|[k0 v0] data IH]; intros self Hnd Hin Hk;
    [contradiction|].
  simpl in Hnd. apply NoDup_cons in Hnd as [Hfresh Hnd].
  rewrite installAll_cons. destruct Hin as [[= -> ->]|Hin].
  - rewrite installAll_content_out by (now rewrite <- list_elem_of_In).
    now apply content_setContent_eq.
  - apply IH; auto. now rewrite setContent_keys.
Qed.

Lemma setContent_d file bytes (a b : ExtraCompiler ProcessMembers) :
  d a = d b ->
  d (exec (setContent file bytes) a) = d (exec (setContent file bytes) b) /\
  log (setContent file bytes) a = log (setContent file bytes) b.
Proof.
  intros Hd. unfold exec, log, setContent, bind, get. rewrite Hd.
  destruct (find file (contents (d b))) as [cached|]; [|now split].
  destruct (qba_eqb cached bytes); simpl; [now split|].
  unfold on_d, modify, emit. simpl. now rewrite Hd.
Qed.

Lemma installAll_d data (a b : ExtraCompiler ProcessMembers) :
  d a = d b ->
  d (exec (installAll data) a) = d (exec (installAll data) b) /\
  log (installAll data) a = log (installAll data) b.
Proof.
  revert a b. induction data as [|[k v] data IH]; intros a b Hd; [now split|].
  rewrite !installAll_cons. unfold installAll at 3 4. simpl.
  rewrite !log_bind. fold (installAll data).
  destruct (setContent_d k v a b Hd) as [Hd' ->].
  destruct (IH _ _ Hd') as [-> ->]. now split.
Qed.

(** C2.  When the worker returns for the tracked watcher, [cleanUp]
    deletes the watcher.  If nothing was reported, or the reported hash
    is empty, the cache and the watermark stay as they are and no target
    is announced.  Otherwise the reported entries go through
    [setContent] one by one (so a declared target then compares equal to
    what was reported for it, an entry for an undeclared path is ignored,
    a target that was not reported is untouched, and only changed targets
    are announced) and the watermark becomes the current time. *)
Theorem cleanUp_keeps_or_adopts fs proj src tgts (evs : list Event)
        (now : Z) (w : nat) (out : Outcome) :
  let self := exec (handleAll_ evs) (fst (construct fs proj src tgts)) in
  let finished := exec (workerDone now w out) self in
  let effects := log (workerDone now w out) self in
  m_watcher (sub self) = Some w ->
  m_watcher (sub finished) = None /\
  (reported out = None \/ reported out = Some [] ->
   contents (d finished) = contents (d self) /\
   compileTime (d finished) = compileTime (d self) /\
   effects = [deleteWatcher w]) /\
  (forall data,
     reported out = Some data -> data <> [] ->
     contents (d finished) = contents (d (exec (installAll data) self)) /\
     notifications effects = notifications (log (installAll data) self) /\
     compileTime (d finished) = Some now /\
     (forall k, ~ In k (keys data) -> content k finished = content k self) /\
     (NoDup (keys data) ->
      forall k v, In (k, v) data -> In k (targets self) ->
                  qba_eqb (content k finished) v = true)).
Proof.
  cbn zeta. intros Hw.
  set (self := exec (handleAll_ evs) (fst (construct fs proj src tgts))) in *.
  assert (Hc : consistent self)
    by (apply handleAll_consistent, construct_consistent).
  destruct Hc as [Hwatch _].
  pose proof (workerDone_tracked now w out self Hwatch Hw) as Hdone.
  cbn zeta in Hdone.
  set (cleared := mkCompiler (d self) _) in Hdone.
  assert (Hd : d cleared = d self) by reflexivity.
  assert (Hfin : exec (workerDone now w out) self
                 = exec (adopt now (reported out)) cleared)
    by (unfold exec at 1; now rewrite Hdone).
  assert (Heff : log (workerDone now w out) self
                 = deleteWatcher w :: log (adopt now (reported out)) cleared)
    by (unfold log at 1; now rewrite Hdone).
  assert (Hm : m_watcher (sub cleared) = None) by reflexivity.
  rewrite Hfin, Heff. clearbody cleared. clear Hdone Hfin Heff.
  split; [|split].
  - now destruct (adopt_sameButCache now (reported out) cleared)
      as (_ & _ & _ & _ & _ & _ & ->).
  - intros [-> | ->]; unfold adopt, exec, log; simpl; rewrite Hd;
      repeat split; reflexivity.
  - intros data -> Hne. unfold adopt.
    destruct data as [|kv data]; [contradiction|].
    cbn [isEmpty]. rewrite exec_bind, log_bind.
    destruct (installAll_d (kv :: data) cleared self Hd) as [Hdd Hlog].
    assert (Hset : forall s : ExtraCompiler ProcessMembers,
               d (exec (setCompileTime (Some now)) s)
               = set_compileTime (Some now) (d s)) by reflexivity.
    unfold content. rewrite Hset, Hlog. simpl. rewrite Hdd. repeat split.
    + now rewrite app_nil_r.
    + intros k Hout. now apply installAll_content_out.
    + intros Hnd k v Hin Hk. unfold qba_eqb. apply bool_decide_eq_true.
      now apply installAll_content_in.
Qed.

(** *** One tracked run *)

Lemma workerDone_untracked_d now w out self :
  watching (sub self) ->
  m_watcher (sub self) <> Some w ->
  d (exec (workerDone now w out) self) = d self /\
  m_watcher (sub (exec (workerDone now w out) self)) = m_watcher (sub self) /\
  watchers (sub (exec (workerDone now w out) self)) = watchers (sub self) /\
  log (workerDone now w out) self = [].
Proof.
  intros Hwatch Hno. unfold exec, log.
  destruct (workerDone_untracked now w out self Hwatch Hno) as (fut & -> & _).
  repeat split; reflexivity.
Qed.

Lemma destructor_spec self :
  destructor self =
  (tt, self,
   match m_watcher (sub self) with
   | Some w => [cancel w; waitForFinished w]
   | None => []
   end).
Proof.
  unfold destructor. unfold_cmd. now destruct (m_watcher (sub self)).
Qed.

(** C1.  Whatever events an instance has handled since construction,
    the watcher objects alive are exactly the one [m_watcher] points to,
    if any: at most one.  [runImpl] deletes the watcher that was tracked
    before it creates and tracks the next, so the tracked watcher is
    always the one created last.  A worker that returns for any other
    watcher, in particular for one that has been replaced, reaches no
    live watcher: nothing in the object's cache, watermark or editor
    state changes, the tracked watcher stays, and nothing is emitted.
    The destructor cancels the tracked run and waits for it. *)
Theorem one_tracked_watcher fs proj src tgts (evs : list Event) :
  let self := exec (handleAll_ evs) (fst (construct fs proj src tgts)) in
  watchers (sub self) = option_list (m_watcher (sub self)) /\
  (length (watchers (sub self)) <= 1)%nat /\
  (forall w, m_watcher (sub self) = Some w -> S w = nextWatcher (sub self)) /\
  (forall provider,
     let started := exec (runImpl_ provider) self in
     let new := nextWatcher (sub self) in
     m_watcher (sub started) = Some new /\
     watchers (sub started) = [new] /\
     d started = d self /\
     log (runImpl_ provider) self =
       (match m_watcher (sub self) with
        | Some old => [deleteWatcher old]
        | None => []
        end ++ [newWatcher new; runAsync new (job_ provider)])%list /\
     forall old now out,
       m_watcher (sub self) = Some old ->
       old <> new /\
       d (exec (workerDone now old out) started) = d started /\
       m_watcher (sub (exec (workerDone now old out) started)) = Some new /\
       log (workerDone now old out) started = []) /\
  (forall now w out,
     m_watcher (sub self) <> Some w ->
     d (exec (workerDone now w out) self) = d self /\
     m_watcher (sub (exec (workerDone now w out) self)) = m_watcher (sub self) /\
     log (workerDone now w out) self = []) /\
  log destructor self =
    match m_watcher (sub self) with
    | Some w => [cancel w; waitForFinished w]
    | None => []
    end.
Proof.
  cbn zeta.
  set (self := exec (handleAll_ evs) (fst (construct fs proj src tgts))).
  assert (Hc : consistent self)
    by (apply handleAll_consistent, construct_consistent).
  destruct Hc as [Hwatch Hbridge].
  pose proof Hwatch as [Honly Hnewest Hpending].
  split; [exact Honly|]. split.
  { rewrite Honly. destruct (m_watcher (sub self)); simpl; lia. }
  split; [exact Hnewest|]. split; [|split].
  - intros provider.
    assert (Hc' : consistent (exec (runImpl_ provider) self))
      by (apply runImpl_consistent; now split).
    destruct Hc' as [Hwatch' _].
    assert (Hstarted : exec (runImpl_ provider) self
                       = mkCompiler (d self) (afterRunImpl (sub self)))
      by (unfold exec; now rewrite runImpl_spec).
    destruct (afterRunImpl_tracks (sub self)) as [Htracked Hnext].
    split; [now rewrite Hstarted|].
    split.
    { destruct Hwatch' as [Honly' _ _]. rewrite Honly'.
      rewrite Hstarted. cbn [sub]. now rewrite Htracked. }
    split; [now rewrite Hstarted|].
    split; [unfold log; now rewrite runImpl_spec|].
    intros old now out Hold.
    assert (Hne : old <> nextWatcher (sub self))
      by (specialize (Hnewest old Hold); lia).
    split; [exact Hne|].
    assert (Hno : m_watcher (sub (exec (runImpl_ provider) self)) <> Some old).
    { rewrite Hstarted. cbn [sub]. rewrite Htracked. congruence. }
    destruct (workerDone_untracked_d now old out _ Hwatch' Hno)
      as (Hd & Hm & _ & Hlog).
    repeat split; auto. rewrite Hm, Hstarted. cbn [sub]. exact Htracked.
  - intros now w out Hno.
    destruct (workerDone_untracked_d now w out self Hwatch Hno)
      as (Hd & Hm & _ & Hlog).
    auto.
  - unfold log. now rewrite destructor_spec.
Qed.

(** *** The debounce *)





Lemma initialRunDue_spec self :
  handle_ initialRunDue self = runImpl_ (ProvideFile (source (d self))) self.
Proof.
  simpl. unfold bind, get, run_file.
  now destruct (runImpl_ (ProvideFile (source (d self))) self) as [[[] s] e].
Qed.

Lemma bufferRuns_app (e1 e2 : list Effect) :
  bufferRuns (e1 ++ e2) = (bufferRuns e1 ++ bufferRuns e2)%list.
Proof. unfold bufferRuns. now rewrite runs_app, omap_app. Qed.



Lemma handleAll_log_cons ev evs self :
  log (handleAll_ (ev :: evs)) self
  = (log (handle_ ev) self ++ log (handleAll_ evs) (exec (handle_ ev) self))%list.
Proof. unfold handleAll. simpl. now rewrite log_bind. Qed.



(** *** The worker thread *)

Variable prepareToRun : QByteArray -> bool.
Variable handleProcessFinished : QProcess -> FileNameToContentsHash.

Local Abbreviation runInThread_ :=
  (runInThread prepareToRun handleProcessFinished).

Lemma workerDone_nothing_reported now w out self :
  watching (sub self) ->
  reported out = None ->
  let finished := exec (workerDone now w out) self in
  contents (d finished) = contents (d self) /\
  compileTime (d finished) = compileTime (d self) /\
  notifications (log (workerDone now w out) self) = [].
Proof.
  intros Hwatch Hrep. cbn zeta.
  destruct (decide (m_watcher (sub self) = Some w)) as [Hyes|Hno].
  - unfold exec, log. rewrite workerDone_tracked by assumption.
    rewrite Hrep. simpl. repeat split; reflexivity.
  - destruct (workerDone_untracked_d now w out self Hwatch Hno)
      as (-> & _ & _ & ->).
    repeat split; reflexivity.
Qed.

Lemma runInThread_bad_command fuel fs proc fi job :
  pathIsEmpty (job_cmd job) = true \/ isExecutable fs (job_cmd job) = false ->
  runInThread_ fuel fs proc fi job = Some (mkOutcome [] None).
Proof.
  intros Hcmd. unfold runInThread.
  destruct Hcmd as [-> | ->]; [reflexivity | now rewrite orb_true_r].
Qed.

Lemma runInThread_no_input fuel fs proc fi job :
  isNull (evalProvider fs (job_provider job)) = true \/
  prepareToRun (evalProvider fs (job_provider job)) = false ->
  runInThread_ fuel fs proc fi job = Some (mkOutcome [] None).
Proof.
  intros Hsrc. unfold runInThread.
  destruct (pathIsEmpty (job_cmd job) || negb (isExecutable fs (job_cmd job)));
    [reflexivity|].
  destruct Hsrc as [-> | ->]; [reflexivity | now rewrite orb_true_r].
Qed.

(** C8.  If the command path is empty or the command is not executable,
    or the content provider evaluates to a null array, or [prepareToRun]
    rejects what it evaluates to, then [runInThread] returns, whatever
    the fuel, without a single call on the process and without reporting
    a result; and when a worker returns without a result, for whichever
    watcher, the cache and the watermark are what they were and no
    target is announced. *)
Theorem runInThread_aborts_before_spawn
        (fuel : nat) (disk : FileSystem) (proc : QProcess)
        (fi : QFutureInterface) (job : Job)
        fs proj src tgts (evs : list Event) (now : Z) (w : nat) :
  let sourceContents := evalProvider disk (job_provider job) in
  pathIsEmpty (job_cmd job) = true \/
  isExecutable disk (job_cmd job) = false \/
  isNull sourceContents = true \/
  prepareToRun sourceContents = false ->
  exists out,
    runInThread_ fuel disk proc fi job = Some out /\
    calls out = [] /\ reported out = None /\
    let self := exec (handleAll_ evs) (fst (construct fs proj src tgts)) in
    let finished := exec (workerDone now w out) self in
    contents (d finished) = contents (d self) /\
    compileTime (d finished) = compileTime (d self) /\
    notifications (log (workerDone now w out) self) = [].
Proof.
  cbn zeta. intros Habort. exists (mkOutcome [] None).
  split; [|split; [reflexivity | split; [reflexivity|]]].
  - destruct Habort as [H | [H | [H | H]]];
      [apply runInThread_bad_command | apply runInThread_bad_command
       | apply runInThread_no_input | apply runInThread_no_input]; auto.
  - apply workerDone_nothing_reported; [|reflexivity].
    apply handleAll_consistent, construct_consistent.
Qed.

Lemma evalProvider_unreadable disk fileName :
  openRead disk fileName = None ->
  evalProvider disk (ProvideFile fileName) = QNull.
Proof. intros Hopen. simpl. now rewrite Hopen. Qed.

(** C10.  [run(fileName)] tracks a new watcher, touches neither cache
    nor watermark, and hands the pool a job whose provider reads
    [fileName] when the worker evaluates it.  If the file cannot be
    opened then, the provider yields a null array and [runInThread]
    returns, whatever the fuel, without a call on the process and
    without a result; and when the worker has returned, whatever the
    instance handled in between, the cache and the watermark are what
    they were just before, and no target is announced. *)
Theorem run_file_unreadable_keeps_cache
        fs proj src tgts (evs : list Event) (fileName : FilePath)
        (fuel : nat) (disk : FileSystem) (proc : QProcess)
        (fi : QFutureInterface) (now : Z) :
  let self := exec (handleAll_ evs) (fst (construct fs proj src tgts)) in
  let started := exec (run_file_ fileName) self in
  let w := nextWatcher (sub self) in
  let job := job_ (ProvideFile fileName) in
  openRead disk fileName = None ->
  m_watcher (sub started) = Some w /\
  d started = d self /\
  In (runAsync w job) (log (run_file_ fileName) self) /\
  evalProvider disk (job_provider job) = QNull /\
  exists out,
    runInThread_ fuel disk proc fi job = Some out /\
    calls out = [] /\ reported out = None /\
    forall between : list Event,
      let later := exec (handleAll_ between) started in
      let finished := exec (workerDone now w out) later in
      contents (d finished) = contents (d later) /\
      compileTime (d finished) = compileTime (d later) /\
      notifications (log (workerDone now w out) later) = [].
Proof.
  cbn zeta. intros Hopen.
  set (self := exec (handleAll_ evs) (fst (construct fs proj src tgts))).
  assert (Hc : consistent self)
    by (apply handleAll_consistent, construct_consistent).
  assert (Hc' : consistent (exec (run_file_ fileName) self))
    by now apply runImpl_consistent.
  assert (Hstarted : exec (run_file_ fileName) self
                     = mkCompiler (d self) (afterRunImpl (sub self)))
    by (unfold exec, run_file; now rewrite runImpl_spec).
  destruct (afterRunImpl_tracks (sub self)) as [Htracked _].
  split; [rewrite Hstarted; cbn [sub]; exact Htracked|].
  split; [now rewrite Hstarted|].
  split.
  { unfold log, run_file. rewrite runImpl_spec. simpl.
    apply in_app_iff. right. right. now left. }
  split; [now apply evalProvider_unreadable|].
  exists (mkOutcome [] None).
  split; [|split; [reflexivity | split; [reflexivity|]]].
  - apply runInThread_no_input. left. simpl. now rewrite Hopen.
  - intros between. apply workerDone_nothing_reported; [|reflexivity].
    now apply handleAll_consistent.
Qed.

End ProcessProperties.

(** * Concrete checks *)

Example staleForm_loaded :
  content ui_form_h staleForm = QBytes "old" /\
  compileTime (d staleForm) = Some 50 /\
  dirty (d staleForm) = false /\
  snd (construct stale_disk 0%nat form_ui [ui_form_h])
  = [contentsChanged ui_form_h; singleShotRun 0 form_ui].
Proof. vm_compute. repeat split; reflexivity. Qed.

Example uic_runs_to_completion :
  runInThread acceptAll headerFromStdout 1 bare_disk quickProcess patient uicJob
  = Some uicOutcome.
Proof. vm_compute. reflexivity. Qed.

(** The run of two edits, 500 ms apart, that the debounce is meant for. *)
Example two_edits_one_run :
  let edited := exec (handleUic [contentsChangedIn 500 7]) typedForm in
  timer (d typedForm) = Some 1000 /\
  timer (d edited) = Some 1500 /\
  runs (log (handleUic [timerTick 1000 typing; timerTick 1499 typing]) edited) = [] /\
  runs (log (handleUic [timerTick 1000 typing; timerTick 1499 typing;
                        timerTick 1500 typing; timerTick 1501 typing]) edited)
  = [ProvideBytes (QBytes "<ui><widget/></ui>")].
Proof. vm_compute. repeat split; reflexivity. Qed.

(** Reconciliation looks at each target with the watermark the targets
    before it have left: of two fresh headers only the one visited first
    is taken when the one visited second is the older of the two. *)
Example reconciliation_depends_on_order :
  let disk : FileSystem :=
    <["a.h"%string := mkFile 300 true false (QBytes "A")]>
      (<["b.h"%string := mkFile 200 true false (QBytes "B")]> bare_disk) in
  let born := fst (construct bare_disk 0%nat form_ui ["a.h"; "b.h"]%string) in
  let self := exec (onTargetsBuilt disk nothingBuilding 0%nat) born in
  content "a.h"%string self = QBytes "A" /\
  content "b.h"%string self = QNull /\
  compileTime (d self) = Some 300.
Proof. vm_compute. repeat split; reflexivity. Qed.

(** ** The theorems at work *)

Lemma one_tracked_watcher_witness :
  m_watcher (sub runningForm) = Some 0%nat /\
  let restarted := exec (runUic (QBytes "<ui><widget/></ui>")) runningForm in
  m_watcher (sub restarted) = Some 1%nat /\
  d (exec (workerDone 900 0%nat uicOutcome) restarted) = d restarted /\
  log (workerDone 900 0%nat uicOutcome) restarted = [].
Proof.
  destruct (one_tracked_watcher uic EmptyString uic_args [] bare_disk 0%nat
              form_ui [ui_form_h] [initialRunDue])
    as (_ & _ & _ & Hrun & _).
  destruct (Hrun (ProvideBytes (QBytes "<ui><widget/></ui>")))
    as (Hnew & _ & _ & _ & Hlate).
  assert (Hold : m_watcher (sub runningForm) = Some 0%nat) by reflexivity.
  destruct (Hlate 0%nat 900 uicOutcome Hold) as (_ & Hd & _ & Hlog).
  split; [exact Hold|]. cbn zeta. split; [exact Hnew|]. split; [exact Hd | exact Hlog].
Defined.

Lemma cleanUp_keeps_or_adopts_witness :
  m_watcher (sub runningForm) = Some 0%nat /\
  let finished := exec (workerDone 900 0%nat uicOutcome) runningForm in
  m_watcher (sub finished) = None /\
  compileTime (d finished) = Some 900 /\
  qba_eqb (content ui_form_h finished) (QBytes "#pragma once") = true.
Proof.
  assert (Hw : m_watcher (sub runningForm) = Some 0%nat) by reflexivity.
  destruct (cleanUp_keeps_or_adopts uic EmptyString uic_args [] bare_disk 0%nat
              form_ui [ui_form_h] [initialRunDue] 900 0%nat uicOutcome Hw)
    as (Hnone & _ & Hadopt).
  destruct (Hadopt [(ui_form_h, QBytes "#pragma once")] eq_refl)
    as (_ & _ & Htime & _ & Hin); [discriminate|].
  split; [exact Hw|]. cbn zeta. split; [exact Hnone|]. split; [exact Htime|].
  apply Hin.
  - vm_compute. constructor; [inversion 1 | constructor].
  - now left.
  - vm_compute. now left.
Defined.

Lemma constructor_scans_targets_witness :
  qba_eqb (content ui_form_h staleForm) (QBytes "old") = true /\
  scheduledRuns (snd (construct stale_disk 0%nat form_ui [ui_form_h]))
  = [(0, form_ui)].
Proof.
  destruct (constructor_scans_targets stale_disk 0%nat form_ui [ui_form_h] noWatcher)
    as (Hload & _ & _ & _ & _ & _ & Hrun & _).
  split.
  - apply Hload; [now left | vm_compute; reflexivity].
  - exact Hrun.
Defined.


Lemma setContent_replaces_iff_differs_witness :
  In ui_form_h (targets staleForm) /\
  let again := setContent ui_form_h (QBytes "new") in
  log again staleForm = [contentsChanged ui_form_h] /\
  log again (exec again staleForm) = [].
Proof.
  assert (Hin : In ui_form_h (targets staleForm)) by (vm_compute; now left).
  destruct (setContent_replaces_iff_differs staleForm ui_form_h (QBytes "new") Hin)
    as (Hdiffers & _ & _ & Hsecond & _).
  split; [exact Hin|]. cbn zeta. split; [|exact Hsecond].
  apply Hdiffers. vm_compute. reflexivity.
Defined.


Lemma detach_runs_pending_edit_witness :
  lastEditor (d typedForm) = Some form_editor /\
  let closing := onEditorAboutToClose runUic typing form_editor in
  runs (log closing typedForm) = [ProvideBytes (QBytes "<ui><widget/></ui>")] /\
  dirty (d (exec closing typedForm)) = false /\
  lastEditor (d (exec closing typedForm)) = None.
Proof.
  assert (Hbound : lastEditor (d typedForm) = Some form_editor) by reflexivity.
  destruct (detach_runs_pending_edit runUic typing form_editor typedForm Hbound)
    as (_ & _ & Hclose & _).
  split; [exact Hbound|]. cbn zeta. unfold exec, log.
  rewrite (Hclose eq_refl). vm_compute. repeat split; reflexivity.
Defined.

Lemma runInThread_aborts_before_spawn_witness :
  pathIsEmpty (job_cmd noCommandJob) = true /\
  exists out,
    runInThread acceptAll headerFromStdout 0 bare_disk quickProcess patient
                noCommandJob = Some out /\
    calls out = [] /\ reported out = None /\
    contents (d (exec (workerDone 900 0%nat out) runningForm))
    = contents (d runningForm).
Proof.
  assert (Hempty : pathIsEmpty (job_cmd noCommandJob) = true) by reflexivity.
  destruct (runInThread_aborts_before_spawn uic EmptyString uic_args []
              acceptAll headerFromStdout 0 bare_disk quickProcess patient
              noCommandJob bare_disk 0%nat form_ui [ui_form_h] [initialRunDue]
              900 0%nat (or_introl Hempty))
    as (out & Hout & Hcalls & Hrep & Hcache & _).
  split; [exact Hempty|]. exists out. repeat split; assumption.
Defined.

Lemma targets_fixed_at_construction_witness :
  targets typedForm = [ui_form_h] /\
  setContent "moc_form.cpp"%string (QBytes "x") typedForm = (tt, typedForm, []).
Proof.
  destruct (targets_fixed_at_construction uic EmptyString uic_args [] bare_disk
              0%nat form_ui [ui_form_h]
              [currentEditorChanged typing (Some form_editor);
               contentsChangedIn 0 7])
    as (Hkeys & _ & _ & Hout).
  split.
  - etransitivity; [exact Hkeys | vm_compute; reflexivity].
  - apply Hout. vm_compute. intros [H|[]]. discriminate.
Defined.

Lemma run_file_unreadable_keeps_cache_witness :
  openRead bare_disk "gone.ui"%string = None /\
  let started := exec (run_file uic EmptyString uic_args [] "gone.ui"%string)
                      staleForm in
  exists out,
    runInThread acceptAll headerFromStdout 5 bare_disk quickProcess patient
                (mkJob uic EmptyString uic_args (ProvideFile "gone.ui"%string) [])
    = Some out /\
    calls out = [] /\
    contents (d (exec (workerDone 900 0%nat out) started)) = contents (d staleForm).
Proof.
  assert (Hgone : openRead bare_disk "gone.ui"%string = None)
    by (vm_compute; reflexivity).
  destruct (run_file_unreadable_keeps_cache uic EmptyString uic_args []
              acceptAll headerFromStdout stale_disk 0%nat form_ui [ui_form_h] []
              "gone.ui"%string 5 bare_disk quickProcess patient 900 Hgone)
    as (_ & Hd & _ & _ & out & Hout & Hcalls & _ & Hlater).
  destruct (Hlater []) as (Hcache & _).
  split; [exact Hgone|]. cbn zeta. exists out.
  split; [exact Hout|]. split; [exact Hcalls|].
  etransitivity; [exact Hcache|]. exact (f_equal contents Hd).
Defined.

(** ** Where the specification's wording goes too far *)

(** C3 as worded: every target that exists on disk has its content in
    the cache after construction.  Here is one that exists and is not
    loaded: the header cannot be opened. *)
Lemma constructor_leaves_unreadable_target_out :
  exists t info,
    In t [ui_form_h] /\ locked_disk !! t = Some info /\
    exists_ locked_disk t = true /\
    qba_eqb (content t (fst (construct locked_disk 0%nat form_ui [ui_form_h])))
            (readAll info) = false.
Proof.
  exists ui_form_h, (mkFile 200 false false (QBytes "generated")).
  vm_compute. repeat split; auto.
Qed.


(** * Further properties *)

(** ** The worker thread, past the spawn *)

Section WorkerThread.
Variable prepareToRun : QByteArray -> bool.
Variable handleProcessFinished : QProcess -> FileNameToContentsHash.

Local Abbreviation runInThread_ :=
  (runInThread prepareToRun handleProcessFinished).

Implicit Types (proc : QProcess) (fi : QFutureInterface) (job : Job).

Local Abbreviation runnable_ := (runnable prepareToRun).

Lemma runInThread_runnable fuel fs proc fi job :
  runnable_ fs job ->
  runInThread_ fuel fs proc fi job =
  let sourceContents := evalProvider fs (job_provider job) in
  let spawn := start (job_cmd job) (job_args job) (job_workDir job) (job_env job) in
  if negb (waitForStarted proc) then
    Some (mkOutcome [spawn; handleProcessError] None)
  else
    let waited :=
      if isCanceled fi 0%nat then Some (true, [spawn])
      else match pollLoop fuel proc fi 0%nat with
           | Some c => Some (c, [spawn; handleProcessStarted sourceContents])
           | None => None
           end in
    match waited with
    | None => None
    | Some (canceled, sofar) =>
        if canceled || stateRunning proc then
          Some (mkOutcome (sofar ++ [kill]) None)
        else
          Some (mkOutcome (sofar ++ [reportResult])
                          (Some (handleProcessFinished proc)))
    end.
Proof.
  intros (Hcmd & Hexe & Hnull & Hprep). unfold runInThread.
  now rewrite Hcmd, Hexe, Hnull, Hprep.
Qed.

(** The loop leaves at the first poll that sees the process done or the
    future cancelled, with what [isCanceled] said at that poll. *)
Lemma pollLoop_exits fuel proc fi (i k : nat) :
  (forall j, (j < k)%nat ->
     waitForFinished200 proc (i + j) = false /\
     isCanceled fi (S (i + j)) = false) ->
  waitForFinished200 proc (i + k) || isCanceled fi (S (i + k)) = true ->
  (k < fuel)%nat ->
  pollLoop fuel proc fi i = Some (isCanceled fi (S (i + k))).
Proof.
  revert fuel i. induction k as [|k IH]; intros fuel i Hbefore Hexit Hfuel.
  - destruct fuel as [|fuel]; [lia|]. simpl.
    rewrite Nat.add_0_r in Hexit. rewrite Hexit. now rewrite Nat.add_0_r.
  - destruct fuel as [|fuel]; [lia|]. simpl.
    destruct (Hbefore 0%nat) as [Hdone Hcanc]; [lia|].
    rewrite Nat.add_0_r in Hdone, Hcanc. rewrite Hdone, Hcanc. simpl.
    replace (i + S k)%nat with (S i + k)%nat in * by lia.
    apply IH; [|assumption|lia].
    intros j Hj. replace (S i + j)%nat with (i + S j)%nat by lia.
    apply Hbefore. lia.
Qed.

Lemma pollLoop_from_start fuel proc fi (k : nat) :
  stillPolling proc fi k ->
  waitForFinished200 proc k || isCanceled fi (S k) = true ->
  (k < fuel)%nat ->
  pollLoop fuel proc fi 0%nat = Some (isCanceled fi (S k)).
Proof.
  intros Hbefore Hexit Hfuel.
  apply (pollLoop_exits fuel proc fi 0%nat k); auto.
Qed.

(** More fuel does not change what the loop returns. *)
Lemma pollLoop_more_fuel fuel fuel' proc fi (i : nat) (c : bool) :
  pollLoop fuel proc fi i = Some c -> (fuel <= fuel')%nat ->
  pollLoop fuel' proc fi i = Some c.
Proof.
  revert fuel' i. induction fuel as [|fuel IH]; intros fuel' i Hc Hle;
    [discriminate|].
  destruct fuel' as [|fuel']; [lia|]. simpl in *.
  destruct (waitForFinished200 proc i || isCanceled fi (S i)); [exact Hc|].
  apply IH; [exact Hc | lia].
Qed.


(** X2.  A job that can be run, whose process starts and is seen to
    have exited at poll [k], with no cancellation seen up to then, ends
    in [reportResult] with what [handleProcessFinished] makes of the
    process, for any fuel above [k]: the process is started, given the
    provider's bytes, and never killed. *)
Theorem runInThread_completes fuel fs proc fi job (k : nat) :
  runnable_ fs job ->
  waitForStarted proc = true ->
  isCanceled fi 0%nat = false ->
  stillPolling proc fi k ->
  waitForFinished200 proc k = true ->
  isCanceled fi (S k) = false ->
  stateRunning proc = false ->
  (k < fuel)%nat ->
  runInThread_ fuel fs proc fi job =
  Some (mkOutcome
          [start (job_cmd job) (job_args job) (job_workDir job) (job_env job);
           handleProcessStarted (evalProvider fs (job_provider job));
           reportResult]
          (Some (handleProcessFinished proc))).
Proof.
  intros Hjob Hstarted Hcanc0 Hbefore Hdone Hcanc Hstate Hfuel.
  rewrite runInThread_runnable by assumption. cbn zeta.
  rewrite Hstarted, Hcanc0. simpl.
  rewrite (pollLoop_from_start fuel proc fi k Hbefore) by
    (try rewrite Hdone; auto).
  now rewrite Hcanc, Hstate.
Qed.

(** X3.  Cancellation and a failed start.  If the process does not
    start, [handleProcessError] is called and nothing else.  If the
    future is already cancelled when the process has started, the
    process is killed without [handleProcessStarted] being called.  If
    the cancellation is seen at poll [k], the loop leaves at that poll
    and the process is killed, even when that same poll saw the process
    exit.  In all three cases nothing is reported. *)
Theorem runInThread_cancelled_or_not_started fuel fs proc fi job :
  runnable_ fs job ->
  let sourceContents := evalProvider fs (job_provider job) in
  let spawn := start (job_cmd job) (job_args job) (job_workDir job) (job_env job) in
  (waitForStarted proc = false ->
   runInThread_ fuel fs proc fi job
   = Some (mkOutcome [spawn; handleProcessError] None)) /\
  (waitForStarted proc = true -> isCanceled fi 0%nat = true ->
   runInThread_ fuel fs proc fi job = Some (mkOutcome [spawn; kill] None)) /\
  (forall k,
     waitForStarted proc = true -> isCanceled fi 0%nat = false ->
     stillPolling proc fi k -> isCanceled fi (S k) = true -> (k < fuel)%nat ->
     runInThread_ fuel fs proc fi job
     = Some (mkOutcome [spawn; handleProcessStarted sourceContents; kill] None)).
Proof.
  intros Hjob. cbn zeta. repeat split.
  - intros Hstarted. rewrite runInThread_runnable by assumption. cbn zeta.
    now rewrite Hstarted.
  - intros Hstarted Hcanc0. rewrite runInThread_runnable by assumption.
    cbn zeta. now rewrite Hstarted, Hcanc0.
  - intros k Hstarted Hcanc0 Hbefore Hcanc Hfuel.
    rewrite runInThread_runnable by assumption. cbn zeta.
    rewrite Hstarted, Hcanc0. simpl.
    rewrite (pollLoop_from_start fuel proc fi k Hbefore) by
      (try rewrite Hcanc, orb_true_r; auto).
    now rewrite Hcanc.
Qed.

(** Once an execution has returned, more fuel for the polling loop
    returns the same: the outcome is the worker's, not the bound's. *)
Lemma runInThread_more_fuel fuel fuel' fs proc fi job out :
  runInThread_ fuel fs proc fi job = Some out ->
  (fuel <= fuel')%nat ->
  runInThread_ fuel' fs proc fi job = Some out.
Proof.
  unfold runInThread. intros Hrun Hle.
  destruct (pathIsEmpty (job_cmd job) || negb (isExecutable fs (job_cmd job)));
    [exact Hrun|].
  destruct (isNull (evalProvider fs (job_provider job))
            || negb (prepareToRun (evalProvider fs (job_provider job))));
    [exact Hrun|].
  destruct (negb (waitForStarted proc)); [exact Hrun|].
  cbn zeta in *.
  destruct (isCanceled fi 0%nat); [exact Hrun|].
  destruct (pollLoop fuel proc fi 0%nat) as [c|] eqn:Hloop; [|discriminate].
  now rewrite (pollLoop_more_fuel fuel fuel' proc fi 0%nat c Hloop Hle).
Qed.

End WorkerThread.

(** ** Reconciliation, seen from outside *)

Section ReconciliationAgain.
Context {Sub : Type}.
Implicit Types (self : ExtraCompiler Sub) (fs : FileSystem).

(** X4.  Reconciliation never moves the watermark back: either it
    leaves it as it is, or it moves it forward to the modification time
    of a declared target that can be read and is newer than the source. *)
Theorem onTargetsBuilt_only_advances fs isBuilding proj self :
  let watermark := compileTime (d self) in
  let watermark' := compileTime (d (exec (onTargetsBuilt fs isBuilding proj) self)) in
  watermark' = watermark \/
  exists target info,
    In target (targets self) /\ fs !! target = Some info /\
    openable info = true /\
    watermark' = Some (lastModified info) /\
    dt_gtb (Some (lastModified info)) (fileTime fs (source (d self))) = true /\
    dt_ltb watermark (Some (lastModified info)) = true.
Proof.
  cbn zeta. unfold onTargetsBuilt. rewrite exec_bind. unfold get at 1. simpl.
  destruct (bool_decide (proj <> project (d self)) || isBuilding proj);
    [now left|].
  destruct (isValid (compileTime (d self))
            && dt_geb (compileTime (d self)) (fileTime fs (source (d self))));
    [now left|].
  apply (forEach_invariant_in
           (fun s => advancedTo fs (fileTime fs (source (d self))) (targets self)
                                (compileTime (d self)) (compileTime (d s)))).
  - intros target s Hin Hs. now apply adoptBuilt_advances.
  - now left.
Qed.

(** Either the loop has done nothing at all, or the watermark is now
    valid and newer than the source. *)
Lemma adoptAll_nothing_or_newer fs sourceTime tgts self :
  forEach tgts (adoptBuilt fs sourceTime) self = (tt, self, []) \/
  dt_ltb sourceTime
         (compileTime (d (exec (forEach tgts (adoptBuilt fs sourceTime)) self)))
  = true.
Proof.
  assert (Hkeep : forall l (s : ExtraCompiler Sub),
            dt_ltb sourceTime (compileTime (d s)) = true ->
            dt_ltb sourceTime
              (compileTime (d (exec (forEach l (adoptBuilt fs sourceTime)) s)))
            = true).
  { intros l. apply (forEach_invariant
      (fun s : ExtraCompiler Sub =>
         dt_ltb sourceTime (compileTime (d s)) = true)).
    intros target s Hs.
    destruct (adoptBuilt_cases fs sourceTime target s)
      as [Hskip | (info & bytes & _ & _ & Hnewer & _ & Hadopt)];
      unfold exec; [now rewrite Hskip|].
    rewrite Hadopt.
    destruct (setContent_frame
                (mkCompiler (set_compileTime (Some (lastModified info)) (d s))
                            (sub s)) target bytes) as [Hct _].
    unfold exec in Hct. now rewrite Hct. }
  revert self. induction tgts as [|target tgts IH]; intros self; [now left|].
  simpl.
  destruct (adoptBuilt_cases fs sourceTime target self)
    as [Hskip | (info & bytes & _ & _ & Hnewer & _ & Hadopt)].
  - destruct (IH self) as [Hrest | Hrest].
    + left. unfold bind. now rewrite Hskip, Hrest.
    + right. rewrite exec_bind. unfold exec at 2. now rewrite Hskip.
  - right. rewrite exec_bind. apply Hkeep. unfold exec. rewrite Hadopt.
    destruct (setContent_frame
                (mkCompiler (set_compileTime (Some (lastModified info)) (d self))
                            (sub self)) target bytes) as [Hct _].
    unfold exec in Hct. now rewrite Hct.
Qed.

Lemma onTargetsBuilt_elsewhere fs isBuilding proj self :
  bool_decide (proj <> project (d self)) || isBuilding proj = true ->
  onTargetsBuilt fs isBuilding proj self = (tt, self, []).
Proof. intros Hguard. unfold onTargetsBuilt, bind, get. now rewrite Hguard. Qed.

Lemma onTargetsBuilt_nothing_or_newer fs isBuilding proj self :
  onTargetsBuilt fs isBuilding proj self = (tt, self, []) \/
  dt_ltb (fileTime fs (source (d self)))
         (compileTime (d (exec (onTargetsBuilt fs isBuilding proj) self)))
  = true.
Proof.
  destruct (bool_decide (proj <> project (d self)) || isBuilding proj) eqn:Hguard;
    [left; now apply onTargetsBuilt_elsewhere|].
  apply orb_false_iff in Hguard as [Hproj Hbuilt].
  apply bool_decide_eq_false in Hproj. apply dec_stable in Hproj.
  destruct (isValid (compileTime (d self))
            && dt_geb (compileTime (d self)) (fileTime fs (source (d self))))
    eqn:Hfresh.
  { left. apply andb_true_iff in Hfresh as [Hvalid Hge].
    now apply onTargetsBuilt_up_to_date. }
  unfold exec. rewrite (onTargetsBuilt_stale fs isBuilding proj self) by assumption.
  apply adoptAll_nothing_or_newer.
Qed.

(** X5.  A second build notification on an unchanged disk does nothing:
    whatever the first one adopted, the second finds the watermark
    newer than the source and returns at once. *)
Theorem onTargetsBuilt_twice fs isBuilding proj self :
  let once := exec (onTargetsBuilt fs isBuilding proj) self in
  exec (onTargetsBuilt fs isBuilding proj) once = once /\
  log (onTargetsBuilt fs isBuilding proj) once = [].
Proof.
  cbn zeta.
  destruct (onTargetsBuilt_sameButCache fs isBuilding proj self)
    as (Hproj & Hsrc & _).
  destruct (onTargetsBuilt_nothing_or_newer fs isBuilding proj self)
    as [Hnothing | Hnewer].
  - unfold exec, log. rewrite !Hnothing. simpl. rewrite Hnothing. now split.
  - set (once := exec (onTargetsBuilt fs isBuilding proj) self) in *.
    assert (Hdone : onTargetsBuilt fs isBuilding proj once = (tt, once, [])).
    { apply onTargetsBuilt_up_to_date.
      - destruct (compileTime (d once)); [reflexivity|].
        destruct (fileTime fs (source (d self))); discriminate.
      - rewrite Hsrc. unfold dt_geb. now rewrite (dt_ltb_asym _ _ Hnewer). }
    unfold exec, log. now rewrite Hdone.
Qed.

(** X6.  An instance that came out of the constructor's scan clean (no
    target missing, none older than the source) is left exactly as it is
    by a build notification on the same disk, whatever the project and
    the build state: its watermark is valid and not older than the
    source, or it has no targets. *)
Theorem clean_construction_needs_no_reconciliation
        fs proj src tgts (sub0 : Sub) isBuilding (built : Project) :
  let born := fst (constructor fs proj src tgts sub0) in
  dirty (d (exec (scan fs src tgts) (initial proj src tgts sub0))) = false ->
  onTargetsBuilt fs isBuilding built born = (tt, born, []).
Proof.
  cbn zeta. intros Hclean. rewrite constructor_unfold. simpl.
  set (scanned := exec (scan fs src tgts) (initial proj src tgts sub0)) in *.
  set (born := mkCompiler (set_dirty false (d scanned)) (sub scanned)).
  assert (Hsrc : source (d born) = src).
  { simpl. unfold scanned.
    now destruct (scan_frame fs src tgts (initial proj src tgts sub0)) as [-> _]. }
  assert (Hct : compileTime (d born) = scanTime fs tgts None)
    by (simpl; unfold scanned; now rewrite scan_compileTime).
  unfold scanned in Hclean. rewrite scan_dirty in Hclean. simpl in Hclean.
  destruct tgts as [|t0 tgts].
  - unfold onTargetsBuilt, bind, get.
    destruct (bool_decide (built <> project (d born)) || isBuilding built);
      [reflexivity|].
    rewrite Hct. reflexivity.
  - destruct (fs !! t0) as [info0|] eqn:Hinfo0.
    2:{ simpl in Hclean. unfold missingOrOlder in Hclean at 1.
        rewrite Hinfo0 in Hclean. discriminate. }
    destruct (scanTime_lower_bound fs (t0 :: tgts) None t0 info0)
      as (m & Hm & _); [now left | assumption |].
    destruct (scanTime_attained fs (t0 :: tgts) None m Hm)
      as [Hnone | (t & info & Hin & Hinfo & Heq)]; [discriminate|].
    apply onTargetsBuilt_up_to_date.
    + now rewrite Hct, Hm.
    + rewrite Hct, Hm, Hsrc. unfold dt_geb. apply negb_true_iff.
      destruct (dt_ltb (Some m) (fileTime fs src)) eqn:Holder; [|reflexivity].
      assert (Hstale : existsb (missingOrOlder fs (fileTime fs src)) (t0 :: tgts)
                       = true).
      { apply existsb_exists. exists t. split; [assumption|].
        unfold missingOrOlder. rewrite Hinfo, Heq. exact Holder. }
      rewrite Hstale in Hclean. discriminate.
Qed.

End ReconciliationAgain.

(** ** What the handlers never do *)

Section Announcements.
Context {Sub : Type}.
Implicit Types (self : ExtraCompiler Sub) (fs : FileSystem).

Lemma announcesOnly_app (e1 e2 : list Effect) :
  announcesOnly e1 -> announcesOnly e2 -> announcesOnly (e1 ++ e2).
Proof. unfold announcesOnly. rewrite Forall_app. auto. Qed.

Lemma announcesOnly_nil : announcesOnly [].
Proof. constructor. Qed.

Lemma announcesOnly_silent (effects : list Effect) :
  announcesOnly effects ->
  created effects = [] /\ deleted effects = [] /\
  cancellations effects = [] /\ runs effects = [].
Proof.
  induction 1 as [|e effects [f ->] _ (Hc & Hd & Hx & Hr)];
    [repeat split; reflexivity|].
  repeat split; assumption.
Qed.

Lemma setContent_announcesOnly self file bytes :
  announcesOnly (log (setContent file bytes) self).
Proof.
  unfold log, setContent, bind, get.
  destruct (find file (contents (d self))) as [cached|]; [|constructor].
  destruct (qba_eqb cached bytes); simpl; [constructor|].
  repeat constructor. eauto.
Qed.

Lemma forEach_announcesOnly {A} (l : list A) (body : A -> Cmd Sub) self :
  (forall x s, announcesOnly (log (body x) s)) ->
  announcesOnly (log (forEach l body) self).
Proof.
  intros Hbody. revert self. induction l as [|x l IH]; intros self;
    [constructor|].
  simpl. rewrite log_bind. apply announcesOnly_app; auto.
Qed.

Lemma adoptBuilt_announcesOnly fs sourceTime target self :
  announcesOnly (log (adoptBuilt fs sourceTime target) self).
Proof.
  unfold adoptBuilt.
  destruct (isValid (fileTime fs target) && dt_gtb (fileTime fs target) sourceTime);
    [|constructor].
  rewrite log_bind. unfold get at 1 2. simpl.
  destruct (dt_geb (compileTime (d self)) (fileTime fs target)); [constructor|].
  destruct (openRead fs target) as [bytes|]; [|constructor].
  rewrite log_bind. apply announcesOnly_app; [constructor|].
  apply setContent_announcesOnly.
Qed.

Lemma onTargetsBuilt_announcesOnly fs isBuilding proj self :
  announcesOnly (log (onTargetsBuilt fs isBuilding proj) self).
Proof.
  unfold onTargetsBuilt. rewrite log_bind. unfold get at 1 2. simpl.
  destruct (bool_decide (proj <> project (d self)) || isBuilding proj);
    [constructor|].
  destruct (isValid (compileTime (d self))
            && dt_geb (compileTime (d self)) (fileTime fs (source (d self))));
    [constructor|].
  apply forEach_announcesOnly. intros x s. apply adoptBuilt_announcesOnly.
Qed.

Lemma scanTarget_announcesOnly fs sourceTime target self :
  announcesOnly (log (scanTarget fs sourceTime target) self).
Proof.
  unfold scanTarget. destruct (fs !! target) as [info|]; [|constructor].
  rewrite !log_bind.
  assert (Hsilent : forall b f (s : ExtraCompiler Sub),
             announcesOnly (log (when b (on_d f)) s))
    by (intros [] f s; constructor).
  repeat apply announcesOnly_app; auto; try constructor.
  destruct (openRead fs target); [apply setContent_announcesOnly | constructor].
Qed.

Lemma scan_announcesOnly fs src tgts self :
  announcesOnly (log (scan fs src tgts) self).
Proof.
  apply forEach_announcesOnly. intros x s. apply scanTarget_announcesOnly.
Qed.

End Announcements.

(** ** Changes of the cache are announced *)

Section Announced.
Context {Sub : Type}.

Lemma qba_eqb_trans (a b c : QByteArray) :
  qba_eqb a b = true -> qba_eqb b c = true -> qba_eqb a c = true.
Proof.
  unfold qba_eqb. intros Hab%bool_decide_eq_true Hbc%bool_decide_eq_true.
  apply bool_decide_eq_true. congruence.
Qed.

Lemma notifications_app (e1 e2 : list Effect) :
  notifications (e1 ++ e2) = (notifications e1 ++ notifications e2)%list.
Proof. unfold notifications. apply omap_app. Qed.

Lemma announced_same (s s' : ExtraCompiler Sub) (L : list Effect) :
  contents (d s') = contents (d s) -> announced s s' L.
Proof.
  intros Hsame f Hdiff. unfold content in Hdiff.
  rewrite Hsame, qba_eqb_refl in Hdiff. discriminate.
Qed.

Lemma announced_app (a b c : ExtraCompiler Sub) (L1 L2 : list Effect) :
  announced a b L1 -> announced b c L2 -> announced a c (L1 ++ L2).
Proof.
  intros Hab Hbc f Hdiff. rewrite notifications_app. apply in_or_app.
  destruct (qba_eqb (content f a) (content f b)) eqn:H1; [|left; auto].
  destruct (qba_eqb (content f b) (content f c)) eqn:H2; [|right; auto].
  now rewrite (qba_eqb_trans _ _ _ H1 H2) in Hdiff.
Qed.

Lemma announcing_ret {A} (a : A) : announcing (Sub := Sub) (ret a).
Proof. intros s. now apply announced_same. Qed.

Lemma announcing_get : announcing (Sub := Sub) get.
Proof. intros s. now apply announced_same. Qed.

Lemma announcing_emit (e : Effect) : announcing (Sub := Sub) (emit e).
Proof. intros s. now apply announced_same. Qed.

Lemma announcing_modify (f : ExtraCompiler Sub -> ExtraCompiler Sub) :
  (forall s, contents (d (f s)) = contents (d s)) -> announcing (modify f).
Proof. intros Hf s. apply announced_same, Hf. Qed.

Lemma announcing_on_d (f : ExtraCompilerPrivate -> ExtraCompilerPrivate) :
  (forall p, contents (f p) = contents p) -> announcing (Sub := Sub) (on_d f).
Proof. intros Hf. apply announcing_modify. intros s. apply Hf. Qed.

Lemma announcing_bind {A B} (m : M (ExtraCompiler Sub) A)
      (k : A -> M (ExtraCompiler Sub) B) :
  announcing m -> (forall a, announcing (k a)) -> announcing (bind m k).
Proof.
  intros Hm Hk s. rewrite exec_bind, log_bind.
  eapply announced_app; [apply Hm | apply Hk].
Qed.

Lemma announcing_when (b : bool) (m : Cmd Sub) :
  announcing m -> announcing (when b m).
Proof. intros Hm. destruct b; [exact Hm | apply announcing_ret]. Qed.

Lemma announcing_forEach {A} (l : list A) (body : A -> Cmd Sub) :
  (forall x, announcing (body x)) -> announcing (forEach l body).
Proof.
  intros Hbody. induction l as [|x l IH]; simpl; [apply announcing_ret|].
  apply announcing_bind; auto.
Qed.

Lemma announcing_setContent file bytes :
  announcing (Sub := Sub) (setContent file bytes).
Proof.
  intros s f Hdiff.
  destruct (decide (f = file)) as [->|Hne].
  2:{ rewrite content_setContent_ne, qba_eqb_refl in Hdiff by assumption.
      discriminate. }
  revert Hdiff. unfold exec, log, setContent, bind, get, content, value.
  destruct (find file (contents (d s))) as [cached|] eqn:Hf; simpl.
  - destruct (qba_eqb cached bytes); simpl.
    + rewrite Hf, qba_eqb_refl. discriminate.
    + intros _. now left.
  - rewrite Hf. discriminate.
Qed.

End Announced.

(** Walk through a command, one statement at a time. *)
Ltac announce :=
  repeat first
    [ apply announcing_ret | apply announcing_get | apply announcing_emit
    | apply announcing_setContent
    | apply announcing_on_d; intros []; reflexivity
    | apply announcing_modify; intros s; reflexivity
    | apply announcing_when
    | apply announcing_forEach; intros
    | apply announcing_bind; [|intros]
    | match goal with
      | |- announcing (match ?x with _ => _ end) => destruct x
      | |- announcing (if ?b then _ else _) => destruct b
      end ].

Section AnnouncedHandlers.
Context {Sub : Type}.

Lemma announcing_scan fs src tgts : announcing (Sub := Sub) (scan fs src tgts).
Proof. unfold scan, scanTarget, setCompileTime. announce. Qed.

Lemma announcing_onTargetsBuilt fs isBuilding proj :
  announcing (Sub := Sub) (onTargetsBuilt fs isBuilding proj).
Proof. unfold onTargetsBuilt, adoptBuilt. announce. Qed.

Lemma announcing_documentChanged now doc :
  announcing (Sub := Sub) (documentChanged now doc).
Proof. unfold documentChanged, setDirty. announce. Qed.

Section Flush.
Variable run_contents : QByteArray -> Cmd Sub.
Hypothesis run_announcing : forall bytes, announcing (run_contents bytes).

Lemma announcing_onEditorChanged docs editor :
  announcing (onEditorChanged run_contents docs editor).
Proof.
  unfold onEditorChanged, disconnect, connect, unplug, plug.
  announce; apply run_announcing.
Qed.

Lemma announcing_onEditorAboutToClose docs editor :
  announcing (onEditorAboutToClose run_contents docs editor).
Proof.
  unfold onEditorAboutToClose, disconnect, unplug.
  announce; apply run_announcing.
Qed.

Lemma announcing_timerEvent now docs :
  announcing (timerEvent run_contents now docs).
Proof. unfold timerEvent, onTimeout. announce; apply run_announcing. Qed.

End Flush.

End AnnouncedHandlers.

Section ProcessFurther.
Variable command : FilePath.
Variable workingDirectory : FilePath.
Variable arguments : list string.
Variable buildEnvironment : Environment.

Local Abbreviation runImpl_ :=
  (runImpl command workingDirectory arguments buildEnvironment).
Local Abbreviation run_contents_ :=
  (run_contents command workingDirectory arguments buildEnvironment).
Local Abbreviation handle_ :=
  (handle command workingDirectory arguments buildEnvironment).
Local Abbreviation handleAll_ :=
  (handleAll command workingDirectory arguments buildEnvironment).

Implicit Types (self : ExtraCompiler ProcessMembers) (m : ProcessMembers).

Lemma adopt_announcesOnly now future self :
  announcesOnly (log (adopt now future) self).
Proof.
  unfold adopt. destruct future as [data|]; [|constructor].
  destruct (isEmpty data); [constructor|].
  rewrite log_bind. apply announcesOnly_app; [|constructor].
  apply forEach_announcesOnly. intros kv s. apply setContent_announcesOnly.
Qed.

Lemma created_app (e1 e2 : list Effect) :
  created (e1 ++ e2) = (created e1 ++ created e2)%list.
Proof. unfold created. apply omap_app. Qed.

Lemma deleted_app (e1 e2 : list Effect) :
  deleted (e1 ++ e2) = (deleted e1 ++ deleted e2)%list.
Proof. unfold deleted. apply omap_app. Qed.

Lemma cancellations_app (e1 e2 : list Effect) :
  cancellations (e1 ++ e2) = (cancellations e1 ++ cancellations e2)%list.
Proof. unfold cancellations. apply omap_app. Qed.

Lemma bufferRuns_silent (effects : list Effect) :
  announcesOnly effects -> bufferRuns effects = [].
Proof.
  intros H. unfold bufferRuns.
  now destruct (announcesOnly_silent effects H) as (_ & _ & _ & ->).
Qed.

(** A handler that only touches the cache and only announces. *)
Lemma cache_step ev self self' (L : list Effect) :
  sameButCache self' self -> announcesOnly L -> stepFacts ev self self' L.
Proof.
  intros (_ & _ & Hed & Hdirty & Htimer & _ & Hsub) Hlog.
  destruct (announcesOnly_silent L Hlog) as (Hc & Hd & Hx & _).
  unfold stepFacts. rewrite Hc, Hd, Hx, Hsub, Hdirty, (bufferRuns_silent L Hlog).
  rewrite app_nil_r. simpl.
  split; [reflexivity|]. split; [reflexivity|]. split; [lia|].
  unfold armed. now rewrite Hed, Hdirty, Htimer.
Qed.

Lemma runImpl_file_step ev self fileName :
  watching (sub self) ->
  stepFacts ev self (exec (runImpl_ (ProvideFile fileName)) self)
            (log (runImpl_ (ProvideFile fileName)) self).
Proof.
  intros [Honly _ _]. unfold exec, log. rewrite runImpl_spec. simpl.
  unfold stepFacts, afterRunImpl.
  destruct self as [p [[old|] ws fut nx]]; simpl in *; subst ws;
    unfold track, forget; simpl; rewrite ?Nat.eqb_refl; simpl;
    (split; [reflexivity|]; split; [reflexivity|]; split; [lia | auto]).
Qed.

Lemma workerDone_step now w out self :
  watching (sub self) ->
  stepFacts (workerReturned now w out) self
            (exec (workerDone now w out) self) (log (workerDone now w out) self).
Proof.
  intros Hwatch.
  destruct (decide (m_watcher (sub self) = Some w)) as [Hyes|Hno].
  - unfold exec, log. rewrite workerDone_tracked by assumption. cbn [fst snd].
    set (cleared := mkCompiler (d self) _).
    pose proof (adopt_sameButCache now (reported out) cleared)
      as (_ & _ & Hed & Hdirty & Htimer & _ & Hsub).
    pose proof (adopt_announcesOnly now (reported out) cleared) as Hlog.
    destruct (announcesOnly_silent _ Hlog) as (Hc & Hd & Hx & _).
    destruct Hwatch as [Honly _ _]. rewrite Hyes in Honly. simpl in Honly.
    unfold stepFacts.
    change (deleteWatcher w :: log (adopt now (reported out)) cleared)
      with ([deleteWatcher w] ++ log (adopt now (reported out)) cleared)%list.
    rewrite created_app, deleted_app, cancellations_app, bufferRuns_app.
    rewrite Hc, Hd, Hx, (bufferRuns_silent _ Hlog), Hsub, Hdirty, Honly.
    simpl.
    split; [reflexivity|]. split; [reflexivity|]. split; [lia|].
    unfold armed. now rewrite Hed, Hdirty, Htimer.
  - destruct (workerDone_untracked_d now w out self Hwatch Hno)
      as (Hd & _ & Hws & ->).
    unfold stepFacts. rewrite Hd, Hws. simpl. rewrite app_nil_r.
    split; [reflexivity|]. split; [reflexivity|]. split; [lia | auto].
Qed.

Ltac open_process self :=
  let proj := fresh "proj" in let src := fresh "src" in let h := fresh "h" in
  let ct := fresh "ct" in let ed := fresh "ed" in let dty := fresh "dty" in
  let tm := fresh "tm" in let conns := fresh "conns" in
  let mw := fresh "mw" in let ws := fresh "ws" in
  let fut := fresh "fut" in let nx := fresh "nx" in
  destruct self as [[proj src h ct ed dty tm conns] [mw ws fut nx]];
  unfold bridged in *; simpl in *; subst ws.

Ltac count_step := unfold edits, bufferRuns, runs; simpl; lia.

Ltac close_step :=
  split; [reflexivity|]; split; [reflexivity|]; split; [count_step|];
  unfold armed; simpl; try (intros _ Hset; discriminate Hset); auto.

Lemma onEditorChanged_step docs editor self :
  consistent self ->
  stepFacts (currentEditorChanged docs editor) self
            (exec (onEditorChanged run_contents_ docs editor) self)
            (log (onEditorChanged run_contents_ docs editor) self).
Proof.
  intros [[Honly _ _] Hb]. open_process self.
  unfold stepFacts, exec, log, onEditorChanged, run_contents, runImpl, on_sub,
    disconnect, connect, unplug, plug, track, forget.
  unfold_cmd. simpl.
  destruct ed as [old|]; simpl.
  - subst conns. simpl. rewrite Nat.eqb_refl. simpl.
    destruct dty, mw as [w|], editor as [e|]; simpl;
      rewrite ?Nat.eqb_refl; simpl;
      try destruct (bool_decide (filePath (docs (document e)) = src)); simpl;
      close_step.
  - destruct Hb as [-> ->].
    destruct mw as [w|], editor as [e|]; simpl;
      try destruct (bool_decide (filePath (docs (document e)) = src)); simpl;
      close_step.
Qed.

Lemma onEditorAboutToClose_step docs editor self :
  consistent self ->
  stepFacts (editorAboutToClose docs editor) self
            (exec (onEditorAboutToClose run_contents_ docs editor) self)
            (log (onEditorAboutToClose run_contents_ docs editor) self).
Proof.
  intros [[Honly _ _] Hb]. open_process self.
  unfold stepFacts, exec, log, onEditorAboutToClose, run_contents, runImpl,
    on_sub, disconnect, unplug, track, forget.
  unfold_cmd. simpl.
  case_bool_decide as Hed; simpl; [rewrite app_nil_r; close_step|].
  subst ed conns. simpl. rewrite Nat.eqb_refl. simpl.
  destruct dty, mw as [w|]; simpl; rewrite ?Nat.eqb_refl; simpl; close_step.
Qed.

Lemma documentChanged_step now doc self :
  consistent self ->
  stepFacts (contentsChangedIn now doc) self
            (exec (documentChanged now doc) self)
            (log (documentChanged now doc) self).
Proof.
  intros [[Honly _ _] Hb]. unfold exec, log.
  destruct (lastEditor (d self)) as [e|] eqn:He.
  - rewrite (documentChanged_bound now doc self e) by assumption.
    destruct (Nat.eqb (document e) doc); simpl; unfold stepFacts; simpl;
      rewrite app_nil_r.
    + split; [reflexivity|]. split; [reflexivity|].
      split; [destruct (dirty (d self)); count_step|].
      unfold armed. simpl. rewrite He. intros _ _. split; eexists; reflexivity.
    + split; [reflexivity|]. split; [reflexivity|]. split; [count_step | auto].
  - rewrite documentChanged_unbound by assumption.
    unfold stepFacts. simpl. rewrite app_nil_r.
    split; [reflexivity|]. split; [reflexivity|]. split; [count_step | auto].
Qed.

Lemma timerEvent_step now docs self :
  consistent self ->
  stepFacts (timerTick now docs) self
            (exec (timerEvent run_contents_ now docs) self)
            (log (timerEvent run_contents_ now docs) self).
Proof.
  intros [[Honly _ _] Hb]. open_process self.
  unfold stepFacts, exec, log, timerEvent, onTimeout, run_contents, runImpl,
    on_sub, track, forget.
  unfold_cmd. simpl.
  destruct tm as [due|]; simpl; [|rewrite app_nil_r; close_step].
  destruct (due <=? now); simpl; [|rewrite app_nil_r; close_step].
  destruct ed as [e|]; simpl.
  - destruct dty, mw as [w|]; simpl; rewrite ?Nat.eqb_refl; simpl; close_step.
  - destruct Hb as [-> ->]. rewrite app_nil_r. close_step.
Qed.

Lemma handle_step ev self :
  consistent self ->
  stepFacts ev self (exec (handle_ ev) self) (log (handle_ ev) self).
Proof.
  intros Hc. pose proof Hc as [Hwatch _]. destruct ev; simpl.
  - apply cache_step;
      [apply onTargetsBuilt_sameButCache | apply onTargetsBuilt_announcesOnly].
  - now apply onEditorChanged_step.
  - now apply onEditorAboutToClose_step.
  - now apply documentChanged_step.
  - now apply timerEvent_step.
  - change (stepFacts initialRunDue self (exec (handle_ initialRunDue) self)
                      (log (handle_ initialRunDue) self)).
    unfold exec, log. rewrite initialRunDue_spec.
    now apply runImpl_file_step.
  - now apply workerDone_step.
  - apply cache_step;
      [apply setContent_sameButCache | apply setContent_announcesOnly].
  - apply cache_step; [apply setCompileTime_sameButCache | constructor].
Qed.

Lemma edits_cons ev evs : edits (ev :: evs) = (edits [ev] + edits evs)%nat.
Proof. unfold edits. simpl. now destruct ev. Qed.

(** The facts of one step add up along a history. *)
Lemma handleAll_steps evs self :
  consistent self ->
  let self' := exec (handleAll_ evs) self in
  let L := log (handleAll_ evs) self in
  (watchers (sub self) ++ created L)%list ≡ₚ (deleted L ++ watchers (sub self'))%list /\
  cancellations L = [] /\
  (length (bufferRuns L) + Nat.b2n (dirty (d self'))
   <= Nat.b2n (dirty (d self)) + edits evs)%nat /\
  (armed (d self) -> armed (d self')).
Proof.
  revert self. induction evs as [|ev evs IH]; intros self Hc; cbn zeta.
  - unfold handleAll, exec, log, edits. simpl. rewrite app_nil_r.
    split; [reflexivity | split; [reflexivity | split; [lia | auto]]].
  - rewrite handleAll_cons, handleAll_log_cons.
    destruct (handle_step ev self Hc) as (Hw1 & Hx1 & Hn1 & Ha1).
    destruct (IH (exec (handle_ ev) self)) as (Hw2 & Hx2 & Hn2 & Ha2);
      [now apply handle_consistent|].
    rewrite created_app, deleted_app, cancellations_app, bufferRuns_app,
      length_app, edits_cons, Hx1, Hx2.
    split; [|split; [reflexivity | split; [lia | auto]]].
    rewrite app_assoc, Hw1, <- !app_assoc. now rewrite Hw2.
Qed.

Lemma construct_starts_nothing fs proj src tgts :
  let L := snd (construct fs proj src tgts) in
  created L = [] /\ deleted L = [] /\ cancellations L = [] /\ runs L = [].
Proof.
  cbn zeta. unfold construct. rewrite constructor_unfold. simpl.
  destruct (announcesOnly_silent _
              (scan_announcesOnly fs src tgts (initial proj src tgts noWatcher)))
    as (Hc & Hd & Hx & Hr).
  rewrite created_app, deleted_app, cancellations_app, runs_app, Hc, Hd, Hx, Hr.
  now destruct (dirty _).
Qed.

Lemma construct_idle fs proj src tgts :
  let born := fst (construct fs proj src tgts) in
  watchers (sub born) = [] /\ dirty (d born) = false.
Proof.
  cbn zeta. unfold construct. rewrite constructor_unfold. simpl.
  now destruct (scan_frame fs src tgts (initial proj src tgts noWatcher))
    as (_ & -> & _).
Qed.

(** X7.  No watcher is lost track of: the constructor creates none, and
    after any history of events every watcher that was created has been
    deleted, except the one [m_watcher] points to. *)
Theorem watchers_created_are_deleted_or_tracked fs proj src tgts (evs : list Event) :
  let born := fst (construct fs proj src tgts) in
  let L := log (handleAll_ evs) born in
  let self := exec (handleAll_ evs) born in
  created (snd (construct fs proj src tgts)) = [] /\
  created L ≡ₚ (deleted L ++ option_list (m_watcher (sub self)))%list.
Proof.
  cbn zeta.
  pose proof (construct_consistent fs proj src tgts) as Hc.
  destruct (handleAll_steps evs _ Hc) as (Hw & _).
  destruct (construct_idle fs proj src tgts) as [Hnone _].
  destruct (construct_starts_nothing fs proj src tgts) as (Hcreated & _).
  split; [exact Hcreated|].
  destruct (handleAll_consistent command workingDirectory arguments
              buildEnvironment evs _ Hc) as [[Htracked _ _] _].
  cbn zeta in *. rewrite Hnone, app_nil_l in Hw.
  now rewrite Hw, Htracked.
Qed.

(** X8.  No event handler ever cancels a run or waits for one, and
    neither does the constructor: a run replaced by [runImpl] is left to
    finish on the pool. *)
Theorem handlers_never_cancel fs proj src tgts (evs : list Event) :
  cancellations (snd (construct fs proj src tgts)
                 ++ log (handleAll_ evs) (fst (construct fs proj src tgts))) = [].
Proof.
  pose proof (construct_consistent fs proj src tgts) as Hc.
  destruct (handleAll_steps evs _ Hc) as (_ & Hx & _).
  destruct (construct_starts_nothing fs proj src tgts) as (_ & _ & Hx0 & _).
  cbn zeta in *. now rewrite cancellations_app, Hx0, Hx.
Qed.

(** X9.  Buffer contents are compiled only in answer to edits: after
    any history of events since construction, the runs started on buffer
    contents are at most as many as the content-changed notifications
    that came in, and one fewer while the dirty flag is still set. *)
Theorem buffer_runs_answer_edits fs proj src tgts (evs : list Event) :
  let born := fst (construct fs proj src tgts) in
  let self := exec (handleAll_ evs) born in
  (length (bufferRuns (log (handleAll_ evs) born)) + Nat.b2n (dirty (d self))
   <= edits evs)%nat.
Proof.
  cbn zeta.
  pose proof (construct_consistent fs proj src tgts) as Hc.
  destruct (handleAll_steps evs _ Hc) as (_ & _ & Hn & _).
  destruct (construct_idle fs proj src tgts) as [_ Hclean].
  cbn zeta in *. rewrite Hclean in Hn. simpl in Hn. exact Hn.
Qed.

(** X10.  A pending edit is never stranded: whenever the dirty flag is
    set, an editor is bound and the debounce timer is running. *)
Theorem dirty_flag_is_armed fs proj src tgts (evs : list Event) :
  let self := exec (handleAll_ evs) (fst (construct fs proj src tgts)) in
  dirty (d self) = true ->
  is_Some (lastEditor (d self)) /\ is_Some (timer (d self)).
Proof.
  cbn zeta.
  pose proof (construct_consistent fs proj src tgts) as Hc.
  destruct (handleAll_steps evs _ Hc) as (_ & _ & _ & Harmed).
  destruct (construct_idle fs proj src tgts) as [_ Hclean].
  apply Harmed. unfold armed. cbn zeta in Hclean. rewrite Hclean. discriminate.
Qed.

Lemma announcing_runImpl provider : announcing (runImpl_ provider).
Proof. unfold runImpl, on_sub. announce. Qed.

Lemma announcing_workerDone now w out : announcing (workerDone now w out).
Proof.
  unfold workerDone, storeResult, futureFinished, cleanUp, installAll,
    setCompileTime, on_sub.
  announce.
Qed.

Lemma announcing_handle ev : announcing (handle_ ev).
Proof.
  destruct ev; simpl.
  - apply announcing_onTargetsBuilt.
  - apply announcing_onEditorChanged. intros bytes. apply announcing_runImpl.
  - apply announcing_onEditorAboutToClose. intros bytes. apply announcing_runImpl.
  - apply announcing_documentChanged.
  - apply announcing_timerEvent. intros bytes. apply announcing_runImpl.
  - apply announcing_bind; [apply announcing_get|].
    intros self. apply announcing_runImpl.
  - apply announcing_workerDone.
  - apply announcing_setContent.
  - unfold setCompileTime. announce.
Qed.

(** X11.  The cache never changes behind the listeners' back.  Whatever
    the constructor finds on disk and whatever events the object handles
    afterwards, a target whose cached bytes differ from what they were
    has had [contentsChanged] emitted for it in between. *)
Theorem cache_changes_are_announced fs proj src tgts (evs : list Event)
        (self : ProcessExtraCompiler) :
  announced (initial proj src tgts noWatcher)
            (fst (construct fs proj src tgts))
            (snd (construct fs proj src tgts)) /\
  announced self (exec (handleAll_ evs) self) (log (handleAll_ evs) self).
Proof.
  split.
  - unfold construct, constructor. cbn [fst snd].
    apply (announcing_bind (scan fs src tgts) (fun _ => scheduleInitialRun)).
    + apply announcing_scan.
    + intros _. unfold scheduleInitialRun. announce.
  - apply announcing_forEach. apply announcing_handle.
Qed.

(** *** The order in which a result is installed *)

Lemma assign_comm f1 f2 (c1 c2 : QByteArray) (h : FileNameToContentsHash) :
  f1 <> f2 -> assign f1 c1 (assign f2 c2 h) = assign f2 c2 (assign f1 c1 h).
Proof.
  intros Hne. induction h as [|[k v] h IH]; simpl; [reflexivity|].
  repeat (case_bool_decide; simpl); try congruence.
Qed.

Lemma setContent_swap f1 b1 f2 b2 (self : ProcessExtraCompiler) :
  f1 <> f2 ->
  let one := setContent f1 b1 ;; setContent f2 b2 in
  let other := setContent f2 b2 ;; setContent f1 b1 in
  exec one self = exec other self /\ log one self ≡ₚ log other self.
Proof.
  intros Hne. cbn zeta.
  destruct self as [[proj src h ct ed dty tm conns] m].
  unfold setContent. unfold_cmd. simpl.
  destruct (find f1 h) as [c1|] eqn:H1; destruct (find f2 h) as [c2|] eqn:H2;
    simpl; rewrite ?H1, ?H2; simpl;
    try destruct (qba_eqb c1 b1) eqn:E1; try destruct (qba_eqb c2 b2) eqn:E2;
    simpl;
    rewrite ?(find_assign_ne f1 f2), ?(find_assign_ne f2 f1) by auto;
    rewrite ?H1, ?H2; simpl; rewrite ?E1, ?E2; simpl;
    try (split; reflexivity).
  split; [now rewrite assign_comm | apply perm_swap].
Qed.

Lemma installAll_permuted data data' :
  data ≡ₚ data' -> NoDup (keys data) ->
  forall self : ProcessExtraCompiler,
    exec (installAll data) self = exec (installAll data') self /\
    log (installAll data) self ≡ₚ log (installAll data') self.
Proof.
  unfold installAll.
  induction 1 as [|[k v] l l' Hperm IH|[k1 v1] [k2 v2] l|l l' l'' H1 IH1 H2 IH2];
    intros Hnd self.
  - now split.
  - simpl in Hnd. apply NoDup_cons in Hnd as [_ Hnd]. simpl.
    rewrite !exec_bind, !log_bind.
    destruct (IH Hnd (exec (setContent k v) self)) as [-> ->]. now split.
  - simpl in Hnd. apply NoDup_cons in Hnd as [Hfresh _].
    assert (Hne : k2 <> k1)
      by (intros ->; apply Hfresh; apply list_elem_of_here).
    destruct (setContent_swap k1 v1 k2 v2 self (not_eq_sym Hne)) as [He Hl].
    cbn zeta in He, Hl. rewrite exec_bind in He. rewrite log_bind in Hl.
    rewrite (exec_bind (setContent k2 v2)) in He.
    rewrite (log_bind (setContent k2 v2)) in Hl.
    simpl. rewrite !exec_bind, !log_bind, !app_assoc.
    simpl in He, Hl. rewrite He. split; [reflexivity|].
    apply Permutation_app; [symmetry; exact Hl | reflexivity].
  - assert (Hnd' : NoDup (keys l'))
      by (unfold keys; now rewrite <- H1).
    destruct (IH1 Hnd self) as [-> ->]. now apply IH2.
Qed.

Lemma adopt_permuted now data data' (a b : ProcessExtraCompiler) :
  NoDup (keys data) -> data ≡ₚ data' -> d a = d b ->
  d (exec (adopt now (Some data)) a) = d (exec (adopt now (Some data')) b) /\
  log (adopt now (Some data)) a ≡ₚ log (adopt now (Some data')) b.
Proof.
  intros Hnd Hperm Hd. unfold adopt.
  assert (Hempty : isEmpty data = isEmpty data').
  { destruct data, data'; try reflexivity.
    - now apply Permutation_nil_cons in Hperm.
    - symmetry in Hperm. now apply Permutation_nil_cons in Hperm. }
  rewrite <- Hempty. destruct (isEmpty data); [now split|].
  rewrite !exec_bind, !log_bind.
  destruct (installAll_permuted data data' Hperm Hnd a) as [He Hl].
  destruct (installAll_d data' a b Hd) as [Hd' Hl'].
  rewrite He, Hl, Hl'. unfold_cmd. simpl. rewrite Hd'. now split.
Qed.

(** X12.  What [cleanUp] installs does not depend on the order in which
    the result hash hands out its entries.  Let the future of the tracked
    watcher hold the same entries, keys distinct, in one enumeration or
    in another: [cleanUp] leaves the same cache, watermark and editor
    state, and emits the same notifications up to their order. *)
Theorem cleanUp_installs_in_any_order now w data data'
        (self : ProcessExtraCompiler) :
  m_watcher (sub self) = Some w ->
  NoDup (keys data) -> data ≡ₚ data' ->
  let one := exec (storeResult w data) self in
  let other := exec (storeResult w data') self in
  d (exec (cleanUp now) one) = d (exec (cleanUp now) other) /\
  log (cleanUp now) one ≡ₚ log (cleanUp now) other.
Proof.
  intros Hw Hnd Hperm. cbn zeta.
  assert (Hstored : forall result,
             exec (storeResult w result) self
             = mkCompiler (d self)
                 (mkMembers (m_watcher (sub self)) (watchers (sub self))
                            (<[w := result]> (futures (sub self)))
                            (nextWatcher (sub self)))) by reflexivity.
  rewrite !Hstored. unfold exec at 1 2, log.
  rewrite !(cleanUp_tracked now w) by exact Hw.
  cbn [fst snd sub d futures]. rewrite !lookup_insert_eq.
  match goal with
  | |- d (exec _ ?a) = d (exec _ ?b) /\ _ =>
      destruct (adopt_permuted now data data' a b Hnd Hperm eq_refl) as [Hd Hl]
  end.
  split; [exact Hd | now apply perm_skip].
Qed.

(** X13.  The object listens to one document at most.  Whatever events
    it has handled since construction, its connections to [setDirty] are
    exactly one, to the document of the editor it is bound to, or none
    when no editor is bound; so one notification of a document calls
    [setDirty] at most once. *)
Theorem listens_to_bound_document_only fs proj src tgts (evs : list Event)
        (now : Z) (doc : nat) :
  let self := exec (handleAll_ evs) (fst (construct fs proj src tgts)) in
  connections (d self) = option_list (document <$> lastEditor (d self)) /\
  exec (documentChanged now doc) self
  = if bool_decide (document <$> lastEditor (d self) = Some doc)
    then exec (setDirty now) self else self.
Proof.
  cbn zeta.
  pose proof (construct_consistent fs proj src tgts) as Hc.
  destruct (handleAll_consistent command workingDirectory arguments
              buildEnvironment evs _ Hc) as [_ Hb].
  set (self := exec (handleAll_ evs) (fst (construct fs proj src tgts))) in *.
  assert (Hconns : connections (d self)
                   = option_list (document <$> lastEditor (d self))).
  { unfold bridged in Hb. destruct (lastEditor (d self)); simpl; tauto. }
  split; [exact Hconns|].
  unfold documentChanged. rewrite exec_bind. unfold get at 1. cbn [fst snd exec].
  rewrite Hconns. destruct (lastEditor (d self)) as [e|]; simpl.
  - destruct (Nat.eqb_spec (document e) doc) as [->|Hne]; simpl.
    + rewrite bool_decide_eq_true_2 by reflexivity.
      unfold setDirty. now unfold_cmd.
    + rewrite bool_decide_eq_false_2 by congruence. reflexivity.
  - reflexivity.
Qed.

End ProcessFurther.

(** ** The registries of factories and observers *)

Lemma count_occ_removeAll (x p : nat) (l : list nat) :
  count_occ Nat.eq_dec (removeAll x l) p
  = if Nat.eqb x p then 0%nat else count_occ Nat.eq_dec l p.
Proof.
  induction l as [|y l IH]; simpl; [now destruct (Nat.eqb x p)|].
  destruct (Nat.eqb_spec y x) as [->|Hyx]; simpl.
  - rewrite IH. destruct (Nat.eqb_spec x p) as [->|Hxp]; [reflexivity|].
    now destruct (Nat.eq_dec x p).
  - destruct (Nat.eq_dec y p) as [->|Hyp]; rewrite IH;
      destruct (Nat.eqb_spec x p); try reflexivity; congruence.
Qed.

Lemma count_occ_removeOne (x p : nat) (l : list nat) :
  count_occ Nat.eq_dec (removeOne x l) p
  = if Nat.eqb x p then Nat.pred (count_occ Nat.eq_dec l p)
    else count_occ Nat.eq_dec l p.
Proof.
  induction l as [|y l IH]; simpl; [now destruct (Nat.eqb x p)|].
  destruct (Nat.eqb_spec y x) as [->|Hyx]; simpl.
  - destruct (Nat.eqb_spec x p) as [->|Hxp].
    + now destruct (Nat.eq_dec p p).
    + now destruct (Nat.eq_dec x p).
  - destruct (Nat.eq_dec y p) as [->|Hyp]; rewrite IH;
      destruct (Nat.eqb_spec x p); try reflexivity; congruence.
Qed.

Lemma orderly_snoc (before evs : list Lifetime) (ev : Lifetime) :
  orderly before (evs ++ [ev])
  = orderly before evs && permitted (before ++ evs) ev.
Proof.
  revert before. induction evs as [|e evs IH]; intros before; simpl.
  - now rewrite app_nil_r, andb_true_r.
  - now rewrite IH, <- app_assoc, andb_assoc.
Qed.

Lemma afterLifetimes_snoc (evs : list Lifetime) (ev : Lifetime) :
  afterLifetimes (evs ++ [ev]) = lives (afterLifetimes evs) ev.
Proof. unfold afterLifetimes. now rewrite fold_left_app. Qed.

Lemma factoryAlive_snoc (evs : list Lifetime) (ev : Lifetime) (p : nat) :
  factoryAlive (evs ++ [ev]) p
  = match ev with
    | factoryBorn q => if Nat.eqb q p then true else factoryAlive evs p
    | factoryGone q => if Nat.eqb q p then false else factoryAlive evs p
    | _ => factoryAlive evs p
    end.
Proof. unfold factoryAlive. now rewrite fold_left_app. Qed.

Lemma observerAlive_snoc (evs : list Lifetime) (ev : Lifetime) (p : nat) :
  observerAlive (evs ++ [ev]) p
  = match ev with
    | observerBorn q => if Nat.eqb q p then true else observerAlive evs p
    | observerGone q => if Nat.eqb q p then false else observerAlive evs p
    | _ => observerAlive evs p
    end.
Proof. unfold observerAlive. now rewrite fold_left_app. Qed.

Lemma registries_count (evs : list Lifetime) (p : nat) :
  orderly [] evs = true ->
  count_occ Nat.eq_dec (factories (afterLifetimes evs)) p
  = Nat.b2n (factoryAlive evs p) /\
  count_occ Nat.eq_dec (observers (afterLifetimes evs)) p
  = Nat.b2n (observerAlive evs p).
Proof.
  induction evs as [|ev evs IH] using rev_ind; [now split|].
  rewrite orderly_snoc. intros [Hevs Hev]%andb_true_iff.
  destruct (IH Hevs) as [Hf Ho]. rewrite app_nil_l in Hev.
  rewrite afterLifetimes_snoc, factoryAlive_snoc, observerAlive_snoc.
  destruct ev as [q|q|q|q]; cbn [lives permitted] in *;
    unfold ExtraCompilerFactory.constructor, ExtraCompilerFactory.destructor,
      ExtraCompilerFactoryObserver.constructor,
      ExtraCompilerFactoryObserver.destructor;
    cbn [factories observers];
    rewrite ?count_occ_app, ?count_occ_removeAll, ?count_occ_removeOne,
      ?Hf, ?Ho;
    (split; [|]); try reflexivity;
    destruct (Nat.eqb_spec q p) as [->|Hqp];
    try apply negb_true_iff in Hev; rewrite ?Hev; simpl;
    try (destruct (Nat.eq_dec p p); [|contradiction]);
    try (destruct (Nat.eq_dec q p); [contradiction|]);
    simpl; lia.
Qed.

(** X14.  The registries list exactly the living.  Over any history of
    constructions and destructions in which no two living objects share
    an address and only living objects are destroyed,
    [extraCompilerFactories] holds every living factory once and no
    other, and [annouceCreation] calls [newExtraCompiler] once on every
    living observer and on no other. *)
Theorem registries_list_the_living (evs : list Lifetime) (p : nat)
        (proj : Project) (src : FilePath) (tgts : list FilePath) :
  orderly [] evs = true ->
  let r := afterLifetimes evs in
  count_occ Nat.eq_dec (ExtraCompilerFactory.extraCompilerFactories r) p
  = Nat.b2n (factoryAlive evs p) /\
  count_occ Nat.eq_dec
    (map receiver (ExtraCompilerFactory.annouceCreation proj src tgts r)) p
  = Nat.b2n (observerAlive evs p) /\
  Forall (fun c => newProject c = proj /\ newSource c = src
                   /\ newTargets c = tgts)
         (ExtraCompilerFactory.annouceCreation proj src tgts r).
Proof.
  intros Hevs. cbn zeta.
  destruct (registries_count evs p Hevs) as [Hf Ho].
  unfold ExtraCompilerFactory.extraCompilerFactories,
    ExtraCompilerFactory.annouceCreation.
  rewrite map_map. simpl. rewrite map_id.
  split; [exact Hf | split; [exact Ho|]].
  apply List.Forall_forall. intros c [o [<- _]]%in_map_iff. now simpl.
Qed.

(** ** Concrete checks of the further properties *)


Lemma runInThread_completes_witness :
  runnable acceptAll bare_disk uicJob /\
  runInThread acceptAll headerFromStdout 5 bare_disk quickProcess patient uicJob
  = Some (mkOutcome
            [start uic uic_args EmptyString [];
             handleProcessStarted (evalProvider bare_disk (ProvideFile form_ui));
             reportResult]
            (Some (headerFromStdout quickProcess))).
Proof.
  assert (Hjob : runnable acceptAll bare_disk uicJob)
    by (unfold runnable; vm_compute; repeat split; reflexivity).
  split; [exact Hjob|].
  apply (runInThread_completes acceptAll headerFromStdout 5 bare_disk
           quickProcess patient uicJob 0%nat); try reflexivity; try exact Hjob.
  - intros j Hj. lia.
  - lia.
Defined.

Lemma runInThread_cancelled_or_not_started_witness :
  runnable acceptAll bare_disk uicJob /\
  runInThread acceptAll headerFromStdout 5 bare_disk hangingProcess
              cancelledLater uicJob
  = Some (mkOutcome
            [start uic uic_args EmptyString [];
             handleProcessStarted (evalProvider bare_disk (ProvideFile form_ui));
             kill]
            None).
Proof.
  assert (Hjob : runnable acceptAll bare_disk uicJob)
    by (unfold runnable; vm_compute; repeat split; reflexivity).
  split; [exact Hjob|].
  destruct (runInThread_cancelled_or_not_started acceptAll headerFromStdout 5
              bare_disk hangingProcess cancelledLater uicJob Hjob)
    as (_ & _ & Hlater).
  apply (Hlater 2%nat); try reflexivity.
  - intros [|[|j]] Hj; [now split | now split | lia].
  - lia.
Defined.

Lemma clean_construction_needs_no_reconciliation_witness :
  let born := fst (construct built_disk 0%nat form_ui [ui_form_h]) in
  dirty (d (exec (scan built_disk form_ui [ui_form_h])
                 (initial 0%nat form_ui [ui_form_h] noWatcher))) = false /\
  onTargetsBuilt built_disk nothingBuilding 0%nat born = (tt, born, []).
Proof.
  cbn zeta.
  assert (Hclean : dirty (d (exec (scan built_disk form_ui [ui_form_h])
                                  (initial 0%nat form_ui [ui_form_h] noWatcher)))
                   = false) by (vm_compute; reflexivity).
  split; [exact Hclean|].
  exact (clean_construction_needs_no_reconciliation built_disk 0%nat form_ui
           [ui_form_h] noWatcher nothingBuilding 0%nat Hclean).
Defined.

Lemma dirty_flag_is_armed_witness :
  dirty (d typedForm) = true /\
  is_Some (lastEditor (d typedForm)) /\ is_Some (timer (d typedForm)).
Proof.
  assert (Hdirty : dirty (d typedForm) = true) by (vm_compute; reflexivity).
  split; [exact Hdirty|].
  exact (dirty_flag_is_armed uic EmptyString uic_args [] bare_disk 0%nat form_ui
           [ui_form_h]
           [currentEditorChanged typing (Some form_editor); contentsChangedIn 0 7]
           Hdirty).
Defined.

Lemma cleanUp_installs_in_any_order_witness :
  let data := [(ui_form_h, QBytes "#pragma once");
               ("moc_form.cpp"%string, QBytes "moc")] in
  let one := exec (storeResult 0%nat data) runningForm in
  let other := exec (storeResult 0%nat (rev data)) runningForm in
  m_watcher (sub runningForm) = Some 0%nat /\
  d (exec (cleanUp 900) one) = d (exec (cleanUp 900) other) /\
  log (cleanUp 900) one ≡ₚ log (cleanUp 900) other.
Proof.
  cbn zeta.
  assert (Hw : m_watcher (sub runningForm) = Some 0%nat) by reflexivity.
  split; [exact Hw|].
  apply (cleanUp_installs_in_any_order 900 0%nat
           [(ui_form_h, QBytes "#pragma once");
            ("moc_form.cpp"%string, QBytes "moc")]
           (rev [(ui_form_h, QBytes "#pragma once");
                 ("moc_form.cpp"%string, QBytes "moc")])
           runningForm Hw).
  - simpl. apply NoDup_cons. split; [|apply NoDup_singleton].
    intros H%list_elem_of_singleton. unfold ui_form_h in H. discriminate H.
  - simpl. apply perm_swap.
Defined.

Lemma registries_list_the_living_witness :
  let evs := [factoryBorn 1; observerBorn 2; observerBorn 3; observerGone 2;
              factoryGone 1; factoryBorn 1] in
  orderly [] evs = true /\
  ExtraCompilerFactory.extraCompilerFactories (afterLifetimes evs) = [1%nat] /\
  count_occ Nat.eq_dec
    (map receiver
         (ExtraCompilerFactory.annouceCreation 0%nat form_ui [ui_form_h]
                                               (afterLifetimes evs))) 2%nat
  = 0%nat.
Proof.
  cbn zeta.
  assert (Horderly : orderly [] [factoryBorn 1; observerBorn 2; observerBorn 3;
                                 observerGone 2; factoryGone 1; factoryBorn 1]
                     = true) by reflexivity.
  split; [exact Horderly|]. split; [reflexivity|].
  destruct (registries_list_the_living _ 2%nat 0%nat form_ui [ui_form_h] Horderly)
    as (_ & Hcalls & _).
  exact Hcalls.
Defined.
